(** * Trading journal: the analytics engine ([lib/analytics])

    A shallow embedding of the pure functions that turn a collection of
    trades into summary statistics, category breakdowns, the monthly rollup,
    the equity curve and the rule-based insights, followed by the properties
    the specification states about them.

    Numbers.  The source computes on JavaScript numbers.  Here a number is an
    exact rational ([Q]); the one place where the source produces [Infinity]
    (the profit factor) uses the two-constructor type [Js.number].  Rounding,
    overflow and [NaN] are outside this model.

    Dates.  The functions only observe a [Date] through [getTime],
    [getFullYear], [getMonth] and [toLocaleDateString]; a date is the record
    of these four observations. *)

From Stdlib Require Import QArith Qabs Qminmax ZArith List String Ascii.
From Stdlib Require Import Lia Lqa DecimalString Bool Arith.
From Stdlib Require Import Permutation Sorted.
From Stdlib Require Import Qround.
Import ListNotations.

Local Open Scope Q_scope.

(* ================================================================== *)
(** ** The JavaScript runtime pieces the module relies on *)

Module Js.

(** A number that may be [Infinity]. *)
Inductive number : Type :=
| Fin (q : Q)
| Infinity.

(** [a < b] and [a >= b] on exact numbers. *)
Definition ltb (a b : Q) : bool := negb (Qle_bool b a).
Definition geb (a b : Q) : bool := Qle_bool b a.

(** [x >= q] where [x] may be [Infinity]. *)
Definition number_geb (x : number) (q : Q) : bool :=
  match x with
  | Fin v => geb v q
  | Infinity => true
  end.

(** A count ([array.length], a [++] counter) used as a number. *)
Definition of_nat (n : nat) : Q := inject_Z (Z.of_nat n).

(** [Array.prototype.sort(cmp)]: a stable sort; [cmp a b <= 0] keeps [a]
    in front of [b].  Written as the stable insertion sort. *)
Section Sort.
Context {A : Type} (cmp : A -> A -> Z).

Fixpoint insert (x : A) (l : list A) : list A :=
  match l with
  | [] => [x]
  | y :: l' => if (cmp x y <=? 0)%Z then x :: l else y :: insert x l'
  end.

Definition sort (l : list A) : list A := fold_right insert [] l.
End Sort.

(** [array.reduce(f, init)]. *)
Definition reduce {A B : Type} (f : B -> A -> B) (init : B) (l : list A) : B :=
  fold_left f l init.

(** [array.slice(0, n)]. *)
Definition slice0 {A : Type} (n : nat) (l : list A) : list A := firstn n l.

(** [[...new Set(l)]]: the distinct elements in order of first appearance. *)
Definition distinct (l : list string) : list string :=
  fold_left
    (fun seen x => if existsb (String.eqb x) seen then seen else seen ++ [x])
    l [].

(** [String(n)] for an integer [n]. *)
Definition String_of (n : Z) : string := NilZero.string_of_int (Z.to_int n).

(** [s.padStart(2, '0')]. *)
Definition padStart2 (s : string) : string :=
  match String.length s with
  | O => "00" ++ s
  | S O => "0" ++ s
  | _ => s
  end%string.

(** [a.localeCompare(b)] as a number: code-unit lexicographic order. *)
Definition localeCompare (a b : string) : Z :=
  match String.compare a b with
  | Lt => (-1)%Z
  | Eq => 0%Z
  | Gt => 1%Z
  end.

(** [x || dflt] on strings: the empty string is falsy. *)
Definition or_string (x dflt : string) : string :=
  if String.eqb x "" then dflt else x.

(** The observations made of a [Date]. *)
Record Date : Type := mkDate {
  getTime : Z;
  getFullYear : Z;
  getMonth : Z;
  toLocaleDateString : string
}.

End Js.

(* ================================================================== *)
(** ** [lib/db]: the trade record *)

Module Db.

Inductive Result : Type := Win | Loss | BE.

Inductive Session : Type := Asian | London | NY | PreNY | PostNY.

Inductive Emotion : Type :=
| Calm | Fear | Greed | Impulsive | Overconfident | Disciplined.

(** The string literal each session value is. *)
Definition session_string (s : Session) : string :=
  match s with
  | Asian => "Asian"
  | London => "London"
  | NY => "NY"
  | PreNY => "Pre-NY"
  | PostNY => "Post-NY"
  end.

Definition result_eqb (a b : Result) : bool :=
  match a, b with
  | Win, Win | Loss, Loss | BE, BE => true
  | _, _ => false
  end.

Definition emotion_eqb (a b : Emotion) : bool :=
  match a, b with
  | Calm, Calm | Fear, Fear | Greed, Greed | Impulsive, Impulsive
  | Overconfident, Overconfident | Disciplined, Disciplined => true
  | _, _ => false
  end.

(** The fields of [Trade] that the analytics functions read. *)
Module Trade.
Record t : Type := mk {
  id : string;
  date : Js.Date;
  result : Result;
  rMultiple : Q;
  riskPercent : Q;
  riskAmount : Q;
  rewardAmount : Q;
  session : Session;
  setupTag : string;
  emotion : Emotion
}.
End Trade.

End Db.

(* ================================================================== *)
(** ** [lib/analytics]: the aggregate records *)

Module Analytics.
Import Db.

Module TradingStats.
Record t : Type := mk {
  totalTrades : nat;
  winRate : Q;
  avgR : Q;
  profitFactor : Js.number;
  expectancy : Q;
  maxConsecutiveWins : nat;
  maxConsecutiveLosses : nat;
  maxDrawdown : Q;
  totalProfit : Q;
  totalLoss : Q;
  bestSession : string;
  worstSession : string;
  bestSetup : string;
  worstSetup : string
}.
End TradingStats.

Module SessionStats.
Record t : Type := mk {
  session : string;
  trades : nat;
  winRate : Q;
  avgR : Q;
  totalR : Q
}.
End SessionStats.

Module SetupStats.
Record t : Type := mk {
  setup : string;
  trades : nat;
  winRate : Q;
  avgR : Q;
  totalR : Q
}.
End SetupStats.

Module MonthlyPerformance.
Record t : Type := mk {
  month : string;
  profit : Q;
  trades : nat;
  winRate : Q
}.
End MonthlyPerformance.

Module EquityPoint.
Record t : Type := mk {
  date : string;
  equity : Q;
  balance : Q
}.
End EquityPoint.

(** The sentinel of the best/worst fields. *)
Definition NA : string := "N/A".

Definition isWin (t : Trade.t) : bool := result_eqb (Trade.result t) Win.
Definition isLoss (t : Trade.t) : bool := result_eqb (Trade.result t) Loss.

(** [(a, b) => new Date(a.date).getTime() - new Date(b.date).getTime()] *)
Definition byDateAsc (a b : Trade.t) : Z :=
  (Js.getTime (Trade.date a) - Js.getTime (Trade.date b))%Z.

(** [(a, b) => new Date(b.date).getTime() - new Date(a.date).getTime()] *)
Definition byDateDesc (a b : Trade.t) : Z :=
  (Js.getTime (Trade.date b) - Js.getTime (Trade.date a))%Z.

(** [l.reduce((sum, t) => sum + f(t), 0)] *)
Definition sumOf (f : Trade.t -> Q) (l : list Trade.t) : Q :=
  Js.reduce (fun sum t => sum + f t) 0 l.

(* ---------------------------------------------------------------- *)
(** *** The streak loop of [calculateStats] *)

Record Streaks : Type := mkStreaks {
  currentWinStreak : nat;
  currentLossStreak : nat;
  maxConsecutiveWins : nat;
  maxConsecutiveLosses : nat
}.

Definition streaks0 : Streaks := mkStreaks 0 0 0 0.

Definition streakStep (s : Streaks) (trade : Trade.t) : Streaks :=
  match Trade.result trade with
  | Win =>
      let w := S (currentWinStreak s) in
      mkStreaks w 0 (Nat.max (maxConsecutiveWins s) w) (maxConsecutiveLosses s)
  | Loss =>
      let l := S (currentLossStreak s) in
      mkStreaks 0 l (maxConsecutiveWins s) (Nat.max (maxConsecutiveLosses s) l)
  | BE =>
      mkStreaks 0 0 (maxConsecutiveWins s) (maxConsecutiveLosses s)
  end.

Definition streakLoop (sortedTrades : list Trade.t) : Streaks :=
  fold_left streakStep sortedTrades streaks0.

(* ---------------------------------------------------------------- *)
(** *** The drawdown loop of [calculateStats] *)

Record Drawdown : Type := mkDrawdown {
  peak : Q;
  maxDrawdown : Q;
  runningBalance : Q
}.

Definition drawdown0 : Drawdown := mkDrawdown 0 0 0.

Definition drawdownStep (s : Drawdown) (trade : Trade.t) : Drawdown :=
  let runningBalance' := runningBalance s + Trade.rMultiple trade in
  let peak' := Qmax (peak s) runningBalance' in
  let drawdown := peak' - runningBalance' in
  mkDrawdown peak' (Qmax (maxDrawdown s) drawdown) runningBalance'.

Definition drawdownLoop (sortedTrades : list Trade.t) : Drawdown :=
  fold_left drawdownStep sortedTrades drawdown0.

(* ---------------------------------------------------------------- *)
(** *** [calculateSessionStats] *)

Definition sessions : list string :=
  ["Asian"; "London"; "NY"; "Pre-NY"; "Post-NY"]%string.

Definition sessionEntry (trades : list Trade.t) (session : string)
  : SessionStats.t :=
  let sessionTrades :=
    filter (fun t => String.eqb (session_string (Trade.session t)) session)
           trades in
  let wins := filter isWin sessionTrades in
  let totalR := sumOf Trade.rMultiple sessionTrades in
  let n := List.length sessionTrades in
  SessionStats.mk
    session
    n
    (if (0 <? n)%nat
     then (Js.of_nat (List.length wins) / Js.of_nat n) * 100 else 0)
    (if (0 <? n)%nat then totalR / Js.of_nat n else 0)
    totalR.

Definition calculateSessionStats (trades : list Trade.t)
  : list SessionStats.t :=
  filter (fun s => (0 <? SessionStats.trades s)%nat)
         (map (sessionEntry trades) sessions).

(* ---------------------------------------------------------------- *)
(** *** [calculateSetupStats] *)

Definition setupEntry (trades : list Trade.t) (setup : string)
  : SetupStats.t :=
  let setupTrades :=
    filter (fun t => String.eqb (Trade.setupTag t) setup) trades in
  let wins := filter isWin setupTrades in
  let totalR := sumOf Trade.rMultiple setupTrades in
  let n := List.length setupTrades in
  SetupStats.mk
    setup
    n
    (if (0 <? n)%nat
     then (Js.of_nat (List.length wins) / Js.of_nat n) * 100 else 0)
    (if (0 <? n)%nat then totalR / Js.of_nat n else 0)
    totalR.

Definition calculateSetupStats (trades : list Trade.t)
  : list SetupStats.t :=
  let setups := Js.distinct (map Trade.setupTag trades) in
  filter (fun s => (0 <? SetupStats.trades s)%nat)
         (map (setupEntry trades) setups).

(* ---------------------------------------------------------------- *)
(** *** [calculateStats] *)

Definition emptyStats : TradingStats.t :=
  TradingStats.mk 0 0 0 (Js.Fin 0) 0 0 0 0 0 0 NA NA NA NA.

(** [l.reduce((best, curr) => better(curr, best) ? curr : best, l[0])];
    on the empty array the result is [l[0]], that is [undefined]. *)
Definition pick {A : Type} (better : A -> A -> bool) (l : list A)
  : option A :=
  match l with
  | [] => None
  | first :: _ =>
      Some (Js.reduce (fun best curr => if better curr best then curr else best)
                      first l)
  end.

(** [x?.name || 'N/A'] *)
Definition nameOr {A : Type} (name : A -> string) (x : option A) : string :=
  match x with
  | Some v => Js.or_string (name v) NA
  | None => NA
  end.

Definition profitFactorOf (totalProfit totalLoss : Q) : Js.number :=
  if Js.ltb 0 totalLoss then Js.Fin (totalProfit / totalLoss)
  else if Js.ltb 0 totalProfit then Js.Infinity
  else Js.Fin 0.

Definition calculateStats (trades : list Trade.t) : TradingStats.t :=
  match trades with
  | [] => emptyStats
  | _ :: _ =>
      let wins := filter isWin trades in
      let losses := filter isLoss trades in
      let totalProfit := sumOf Trade.rewardAmount wins in
      let totalLoss := Qabs (sumOf Trade.riskAmount losses) in
      let totalR := sumOf Trade.rMultiple trades in
      let avgR := totalR / Js.of_nat (List.length trades) in
      let sortedTrades := Js.sort byDateAsc trades in
      let streaks := streakLoop sortedTrades in
      let dd := drawdownLoop sortedTrades in
      let sessionStats := calculateSessionStats trades in
      let bestSession :=
        pick (fun curr best =>
                Js.ltb (SessionStats.avgR best) (SessionStats.avgR curr))
             sessionStats in
      let worstSession :=
        pick (fun curr worst =>
                Js.ltb (SessionStats.avgR curr) (SessionStats.avgR worst))
             sessionStats in
      let setupStats := calculateSetupStats trades in
      let bestSetup :=
        pick (fun curr best =>
                Js.ltb (SetupStats.avgR best) (SetupStats.avgR curr))
             setupStats in
      let worstSetup :=
        pick (fun curr worst =>
                Js.ltb (SetupStats.avgR curr) (SetupStats.avgR worst))
             setupStats in
      TradingStats.mk
        (List.length trades)
        ((Js.of_nat (List.length wins) / Js.of_nat (List.length trades)) * 100)
        avgR
        (profitFactorOf totalProfit totalLoss)
        avgR
        (maxConsecutiveWins streaks)
        (maxConsecutiveLosses streaks)
        (maxDrawdown dd)
        totalProfit
        totalLoss
        (nameOr SessionStats.session bestSession)
        (nameOr SessionStats.session worstSession)
        (nameOr SetupStats.setup bestSetup)
        (nameOr SetupStats.setup worstSetup)
  end.


(* ---------------------------------------------------------------- *)
(** *** [calculateMonthlyPerformance] *)

Module MonthBucket.
Record t : Type := mk {
  profit : Q;
  trades : nat;
  wins : nat
}.
End MonthBucket.

(** A JavaScript object used as a map with string keys: the entries in
    insertion order, each key once. *)
Definition Dict (V : Type) : Type := list (string * V).

Fixpoint dictGet {V : Type} (d : Dict V) (key : string) : option V :=
  match d with
  | [] => None
  | (k, v) :: d' => if String.eqb k key then Some v else dictGet d' key
  end.

(** [d[key] = f(d[key])] on a key that is present. *)
Fixpoint dictUpdate {V : Type} (d : Dict V) (key : string) (f : V -> V)
  : Dict V :=
  match d with
  | [] => []
  | (k, v) :: d' =>
      if String.eqb k key then (k, f v) :: d'
      else (k, v) :: dictUpdate d' key f
  end.

(** [`${date.getFullYear()}-${String(date.getMonth() + 1).padStart(2, '0')}`] *)
Definition monthKeyOf (date : Js.Date) : string :=
  (Js.String_of (Js.getFullYear date) ++ "-"
   ++ Js.padStart2 (Js.String_of (Js.getMonth date + 1)%Z))%string.

Definition monthlyStep (monthlyData : Dict MonthBucket.t) (trade : Trade.t)
  : Dict MonthBucket.t :=
  let monthKey := monthKeyOf (Trade.date trade) in
  let monthlyData1 :=
    match dictGet monthlyData monthKey with
    | Some _ => monthlyData
    | None => monthlyData ++ [(monthKey, MonthBucket.mk 0 0 0)]
    end in
  dictUpdate monthlyData1 monthKey
    (fun b =>
       MonthBucket.mk
         (MonthBucket.profit b + Trade.rMultiple trade)
         (S (MonthBucket.trades b))
         (if isWin trade then S (MonthBucket.wins b) else MonthBucket.wins b)).

Definition monthlyRecord (e : string * MonthBucket.t) : MonthlyPerformance.t :=
  let '(month, data) := e in
  MonthlyPerformance.mk
    month
    (MonthBucket.profit data)
    (MonthBucket.trades data)
    ((Js.of_nat (MonthBucket.wins data) / Js.of_nat (MonthBucket.trades data))
     * 100).

Definition calculateMonthlyPerformance (trades : list Trade.t)
  : list MonthlyPerformance.t :=
  let monthlyData := fold_left monthlyStep trades [] in
  map monthlyRecord
      (Js.sort (fun a b => Js.localeCompare (fst a) (fst b)) monthlyData).

(* ---------------------------------------------------------------- *)
(** *** [calculateEquityCurve] *)

(** The amount one trade adds to [runningBalance] in the loop. *)
Definition balanceChange (trade : Trade.t) : Q :=
  Trade.rewardAmount trade - (if isLoss trade then Trade.riskAmount trade else 0).

Definition equityStep (startingBalance : Q)
  (st : Q * list EquityPoint.t) (trade : Trade.t) : Q * list EquityPoint.t :=
  let runningBalance := fst st + balanceChange trade in
  (runningBalance,
   snd st ++ [EquityPoint.mk
                (Js.toLocaleDateString (Trade.date trade))
                (runningBalance - startingBalance)
                runningBalance]).

Definition calculateEquityCurve (trades : list Trade.t) (startingBalance : Q)
  : list EquityPoint.t :=
  let sortedTrades := Js.sort byDateAsc trades in
  snd (fold_left (equityStep startingBalance) sortedTrades
         (startingBalance,
          [EquityPoint.mk "Start" 0 startingBalance])).

(* ---------------------------------------------------------------- *)
(** *** [generateInsights] *)

(** One constructor per message template, carrying the values the template
    interpolates (number formatting with [toFixed] is presentation). *)
Inductive Insight : Type :=
| StartLogging
| BestSessionInsight (session : string) (winRate avgR : Q)
| WorstSessionWarning (session : string) (avgR : Q)
| BestSetupInsight (setup : string) (avgR : Q) (trades : nat)
| RiskManagementInsight (avgRisk : Q)
| ConsecutiveLossesWarning (maxConsecutiveLosses : nat)
| GreatWinRate (winRate : Q)
| LowWinRate (winRate : Q)
| ExcellentProfitFactor (profitFactor : Js.number)
| CalmVsImpulsive (calmAvgR impulsiveAvgR : Q).

Module EmotionBucket.
Record t : Type := mk {
  count : nat;
  wins : nat;
  totalR : Q
}.
End EmotionBucket.

Definition EmotionDict : Type := list (Emotion * EmotionBucket.t).

Fixpoint emotionGet (acc : EmotionDict) (e : Emotion) : option EmotionBucket.t :=
  match acc with
  | [] => None
  | (k, v) :: acc' => if emotion_eqb k e then Some v else emotionGet acc' e
  end.

Fixpoint emotionSet (acc : EmotionDict) (e : Emotion) (b : EmotionBucket.t)
  : EmotionDict :=
  match acc with
  | [] => [(e, b)]
  | (k, v) :: acc' =>
      if emotion_eqb k e then (k, b) :: acc' else (k, v) :: emotionSet acc' e b
  end.

Definition emotionStep (acc : EmotionDict) (t : Trade.t) : EmotionDict :=
  let b0 :=
    match emotionGet acc (Trade.emotion t) with
    | Some b => b
    | None => EmotionBucket.mk 0 0 0
    end in
  emotionSet acc (Trade.emotion t)
    (EmotionBucket.mk
       (S (EmotionBucket.count b0))
       (if isWin t then S (EmotionBucket.wins b0) else EmotionBucket.wins b0)
       (EmotionBucket.totalR b0 + Trade.rMultiple t)).

(** [a || b] on two optional buckets (an object is always truthy). *)
Definition orElse {A : Type} (a b : option A) : option A :=
  match a with
  | Some _ => a
  | None => b
  end.

Definition bestSessionRule (trades : list Trade.t) (stats : TradingStats.t)
  : list Insight :=
  if String.eqb (TradingStats.bestSession stats) NA then []
  else
    let sessionStats := calculateSessionStats trades in
    match find (fun s => String.eqb (SessionStats.session s)
                                    (TradingStats.bestSession stats))
               sessionStats with
    | Some best =>
        if (3 <=? SessionStats.trades best)%nat
        then [BestSessionInsight (TradingStats.bestSession stats)
                (SessionStats.winRate best) (SessionStats.avgR best)]
        else []
    | None => []
    end.

Definition worstSessionRule (trades : list Trade.t) (stats : TradingStats.t)
  : list Insight :=
  if String.eqb (TradingStats.worstSession stats) NA then []
  else
    let sessionStats := calculateSessionStats trades in
    match find (fun s => String.eqb (SessionStats.session s)
                                    (TradingStats.worstSession stats))
               sessionStats with
    | Some worst =>
        if ((3 <=? SessionStats.trades worst)%nat
            && Js.ltb (SessionStats.avgR worst) 0)%bool
        then [WorstSessionWarning (TradingStats.worstSession stats)
                (SessionStats.avgR worst)]
        else []
    | None => []
    end.

Definition bestSetupRule (trades : list Trade.t) (stats : TradingStats.t)
  : list Insight :=
  if String.eqb (TradingStats.bestSetup stats) NA then []
  else
    let setupStats := calculateSetupStats trades in
    match find (fun s => String.eqb (SetupStats.setup s)
                                    (TradingStats.bestSetup stats))
               setupStats with
    | Some best =>
        if (3 <=? SetupStats.trades best)%nat
        then [BestSetupInsight (TradingStats.bestSetup stats)
                (SetupStats.avgR best) (SetupStats.trades best)]
        else []
    | None => []
    end.

Definition riskRule (trades : list Trade.t) : list Insight :=
  let avgRisk := sumOf Trade.riskPercent trades / Js.of_nat (List.length trades) in
  if Js.ltb 2 avgRisk then [RiskManagementInsight avgRisk] else [].

(** The five most recently dated trades, as the rule selects them. *)
Definition recentTrades (trades : list Trade.t) : list Trade.t :=
  Js.slice0 5 (Js.sort byDateDesc trades).

Definition recentLosses (trades : list Trade.t) : nat :=
  List.length (filter isLoss (recentTrades trades)).

Definition consecutiveLossesRule (trades : list Trade.t)
  (stats : TradingStats.t) : list Insight :=
  if (3 <=? TradingStats.maxConsecutiveLosses stats)%nat then
    if (3 <=? recentLosses trades)%nat
    then [ConsecutiveLossesWarning (TradingStats.maxConsecutiveLosses stats)]
    else []
  else [].

Definition winRateRule (trades : list Trade.t) (stats : TradingStats.t)
  : list Insight :=
  if Js.geb (TradingStats.winRate stats) 60
  then [GreatWinRate (TradingStats.winRate stats)]
  else if (Js.ltb (TradingStats.winRate stats) 40
           && (10 <=? List.length trades)%nat)%bool
       then [LowWinRate (TradingStats.winRate stats)]
       else [].

Definition profitFactorRule (stats : TradingStats.t) : list Insight :=
  if Js.number_geb (TradingStats.profitFactor stats) 2
  then [ExcellentProfitFactor (TradingStats.profitFactor stats)]
  else [].

Definition emotionRule (trades : list Trade.t) : list Insight :=
  let emotionTrades := Js.reduce emotionStep [] trades in
  let calmTrades :=
    orElse (emotionGet emotionTrades Calm) (emotionGet emotionTrades Disciplined) in
  let impulsiveTrades :=
    orElse (emotionGet emotionTrades Impulsive) (emotionGet emotionTrades Greed) in
  match calmTrades, impulsiveTrades with
  | Some calm, Some impulsive =>
      let calmAvgR :=
        EmotionBucket.totalR calm / Js.of_nat (EmotionBucket.count calm) in
      let impulsiveAvgR :=
        EmotionBucket.totalR impulsive
        / Js.of_nat (EmotionBucket.count impulsive) in
      if Js.ltb (impulsiveAvgR + (1 # 2)) calmAvgR
      then [CalmVsImpulsive calmAvgR impulsiveAvgR]
      else []
  | _, _ => []
  end.

Definition generateInsights (trades : list Trade.t) (stats : TradingStats.t)
  : list Insight :=
  match trades with
  | [] => [StartLogging]
  | _ :: _ =>
      bestSessionRule trades stats
      ++ worstSessionRule trades stats
      ++ bestSetupRule trades stats
      ++ riskRule trades
      ++ consecutiveLossesRule trades stats
      ++ winRateRule trades stats
      ++ profitFactorRule stats
      ++ emotionRule trades
  end.

End Analytics.

(* ================================================================== *)
(** ** Definitions that follow the specification's words *)

Module Spec.
Import Db Analytics.

(** "incremented by (reward amount if outcome=Win else 0) minus (risk amount
    if outcome=Loss else 0)". *)
Definition balanceChange (trade : Trade.t) : Q :=
  (if isWin trade then Trade.rewardAmount trade else 0)
  - (if isLoss trade then Trade.riskAmount trade else 0).

(** The balances a running total goes through when each trade of [l] adds
    [change] to it, starting from [b]. *)
Fixpoint runningBalances (change : Trade.t -> Q) (b : Q) (l : list Trade.t)
  : list Q :=
  match l with
  | [] => []
  | t :: l' => (b + change t) :: runningBalances change (b + change t) l'
  end.

(** "the sum over all trades of" [change]. *)
Definition total (change : Trade.t -> Q) (l : list Trade.t) : Q :=
  fold_right (fun t acc => change t + acc) 0 l.

(** The length of the run of [p]-trades that starts at the head of [l]. *)
Fixpoint runAtHead (p : Trade.t -> bool) (l : list Trade.t) : nat :=
  match l with
  | [] => 0
  | x :: l' => if p x then S (runAtHead p l') else 0
  end.

(** "the length of the longest run of consecutive [p] outcomes": the largest
    run starting at any position. *)
Fixpoint longestRun (p : Trade.t -> bool) (l : list Trade.t) : nat :=
  match l with
  | [] => 0
  | _ :: l' => Nat.max (runAtHead p l) (longestRun p l')
  end.

(** [n] consecutive trades of [l], all satisfying [p]. *)
Definition hasRun (p : Trade.t -> bool) (l : list Trade.t) (n : nat) : Prop :=
  exists before run after,
    l = before ++ run ++ after /\ List.length run = n /\ forallb p run = true.

(** [l1] is [l2] with some elements left out, the others in their order. *)
Inductive Subsequence {A : Type} : list A -> list A -> Prop :=
| sub_nil : Subsequence [] []
| sub_skip (x : A) (l1 l2 : list A) :
    Subsequence l1 l2 -> Subsequence l1 (x :: l2)
| sub_keep (x : A) (l1 l2 : list A) :
    Subsequence l1 l2 -> Subsequence (x :: l1) (x :: l2).

(** Some trade of the collection was made in the session called [name]. *)
Definition tradedIn (trades : list Trade.t) (name : string) : bool :=
  existsb (fun t => String.eqb (session_string (Trade.session t)) name) trades.

(** What holds of every entry of [monthlyData] during the loop: the bucket
    has counted a trade, has no more wins than trades, and its key is the
    month of a trade ([known]). *)
Definition bucketOk (known : string -> Prop) (e : string * MonthBucket.t)
  : Prop :=
  (1 <= MonthBucket.trades (snd e))%nat
  /\ (MonthBucket.wins (snd e) <= MonthBucket.trades (snd e))%nat
  /\ known (fst e).

(** A profit factor that is the number zero. *)
Definition isZero (x : Js.number) : Prop :=
  match x with
  | Js.Fin q => q == 0
  | Js.Infinity => False
  end.

(** The consecutive-loss warning, whatever count it reports. *)
Definition isConsecutiveLossesWarning (i : Insight) : bool :=
  match i with
  | ConsecutiveLossesWarning _ => true
  | _ => false
  end.

End Spec.

(* ================================================================== *)
(** ** Sample trades *)

Module Examples.
Import Db Analytics.

Definition jan1 : Js.Date := Js.mkDate 1704067200000 2024 0 "1/1/2024".
Definition jan2 : Js.Date := Js.mkDate 1704153600000 2024 0 "1/2/2024".
Definition jan3 : Js.Date := Js.mkDate 1704240000000 2024 0 "1/3/2024".
Definition feb1 : Js.Date := Js.mkDate 1706745600000 2024 1 "2/1/2024".

(** A winning trade as the entry form stores it: 2R on a risk of 100. *)
Definition winTrade : Trade.t :=
  Trade.mk "w1" jan1 Win 2 1 100 200 London "Breakout" Calm.

(** A losing trade as the entry form stores it: -1R, reward amount 0. *)
Definition lossTrade : Trade.t :=
  Trade.mk "l1" jan2 Loss (-1) 1 100 0 London "Breakout" Calm.

(** A breakeven trade as the entry form stores it. *)
Definition beTrade : Trade.t :=
  Trade.mk "b1" jan3 BE 0 1 100 0 NY "Pullback" Fear.

(** A breakeven trade whose reward amount is not 0, as a backup file can
    hold one ([importAllData] stores trades as they come). *)
Definition beTradeWithReward : Trade.t :=
  Trade.mk "b2" jan3 BE 0 1 100 50 NY "Pullback" Fear.

(** A trade whose setup tag is the empty string. *)
Definition untaggedTrade : Trade.t :=
  Trade.mk "u1" feb1 Win 2 1 100 200 Asian "" Calm.

(** Three recent losses behind two older wins. *)
Definition losingWeek : list Trade.t :=
  [ Trade.mk "t1" jan1 Win 2 1 100 200 London "Breakout" Calm;
    Trade.mk "t2" jan2 Loss (-1) 1 100 0 London "Breakout" Calm;
    Trade.mk "t3" jan3 Loss (-1) 1 100 0 NY "Pullback" Fear;
    Trade.mk "t4" feb1 Loss (-1) 1 100 0 NY "Pullback" Greed ].

End Examples.

(* ================================================================== *)
(** ** [lib/calculator]: the lot size calculator *)

Module Calculator.

(** [s.endsWith(suffix)], [s.startsWith(p)] and [s.includes(needle)]. *)
Fixpoint endsWith (s suffix : string) : bool :=
  (String.eqb s suffix
   || match s with
      | EmptyString => false
      | String _ s' => endsWith s' suffix
      end)%bool.

Definition startsWith (s p : string) : bool := String.prefix p s.

Fixpoint includes (s needle : string) : bool :=
  (String.prefix needle s
   || match s with
      | EmptyString => false
      | String _ s' => includes s' needle
      end)%bool.

(** [Math.floor(x)]. *)
Definition floor (x : Q) : Q := inject_Z (Qfloor x).

Module CalculatorInput.
Record t : Type := mk {
  accountBalance : Q;
  riskPercent : Q;
  stopLossPips : Q;
  pair : string;
  accountCurrency : string
}.
End CalculatorInput.

Module CalculatorResult.
Record t : Type := mk {
  lotSize : Q;
  riskAmount : Q;
  pipValue : Q;
  maxLotSize : Q;
  positionValue : Q
}.
End CalculatorResult.

Section WithToUpperCase.
(** [String.prototype.toUpperCase], left to the runtime. *)
Variable toUpperCase : string -> string.

Definition getPipValuePerLot (pair : string) : Q :=
  let pairUpper := toUpperCase pair in
  if endsWith pairUpper "USD" then 10
  else if startsWith pairUpper "USD" then 10
  else if includes pairUpper "JPY" then 17 # 2
  else if (includes pairUpper "XAU" || includes pairUpper "GOLD")%bool then 10
  else if (includes pairUpper "XAG" || includes pairUpper "SILVER")%bool
  then 50
  else if (includes pairUpper "US30" || includes pairUpper "DJ30"
           || includes pairUpper "DOW")%bool then 1
  else if (includes pairUpper "US500" || includes pairUpper "SPX"
           || includes pairUpper "SP500")%bool then 10
  else if (includes pairUpper "NAS100" || includes pairUpper "NASDAQ"
           || includes pairUpper "NDX")%bool then 1
  else if (includes pairUpper "UK100" || includes pairUpper "FTSE")%bool
  then 1
  else if (includes pairUpper "GER40" || includes pairUpper "GER30"
           || includes pairUpper "DAX")%bool then 1
  else 10.

(** [calculateLotSize].  The source divides by
    [stopLossPips * pipValuePerLot]; where that is 0 its lot sizes are
    [Infinity] or [NaN], for which the result here is [None]. *)
Definition calculateLotSize (input : CalculatorInput.t)
  : option CalculatorResult.t :=
  let accountBalance := CalculatorInput.accountBalance input in
  let riskPercent := CalculatorInput.riskPercent input in
  let stopLossPips := CalculatorInput.stopLossPips input in
  let riskAmount := (accountBalance * riskPercent) / 100 in
  let pipValuePerLot := getPipValuePerLot (CalculatorInput.pair input) in
  if Qeq_bool (stopLossPips * pipValuePerLot) 0 then None
  else
    let lotSize := riskAmount / (stopLossPips * pipValuePerLot) in
    let roundedLotSize := floor (lotSize * 100) / 100 in
    let pipValue := roundedLotSize * pipValuePerLot in
    let maxRiskAmount := (accountBalance * 5) / 100 in
    let maxLotSize :=
      floor ((maxRiskAmount / (stopLossPips * pipValuePerLot)) * 100) / 100 in
    let positionValue := roundedLotSize * 100000 in
    Some (CalculatorResult.mk
            roundedLotSize riskAmount pipValue maxLotSize positionValue).

End WithToUpperCase.

End Calculator.

(* ================================================================== *)
(** ** [components/trades/TradeDialog]: the metrics of an entered trade *)

Module TradeDialog.
Import Db.

(** [parseFloat(s) || dflt] and [account?.currentBalance || dflt], on the
    parsed number ([None] for [NaN] or a missing account): 0 is falsy. *)
Definition orNumber (x : option Q) (dflt : Q) : Q :=
  match x with
  | Some q => if Qeq_bool q 0 then dflt else q
  | None => dflt
  end.

(** The fields of the form state the metrics are computed from, after
    [parseFloat]. *)
Module FormData.
Record t : Type := mk {
  entry : option Q;
  stopLoss : option Q;
  exitPrice : option Q;
  riskPercent : option Q;
  result : Result
}.
End FormData.

Module Metrics.
Record t : Type := mk {
  riskAmount : Q;
  rMultiple : Q;
  rewardAmount : Q
}.
End Metrics.

(** [calculateTradeMetrics]; [currentBalance] is [account?.currentBalance]
    of the account the form selects. *)
Definition calculateTradeMetrics (formData : FormData.t)
  (currentBalance : option Q) : Metrics.t :=
  let entry := orNumber (FormData.entry formData) 0 in
  let stopLoss := orNumber (FormData.stopLoss formData) 0 in
  let exitPrice := orNumber (FormData.exitPrice formData) 0 in
  let riskPercent := orNumber (FormData.riskPercent formData) 1 in
  let balance := orNumber currentBalance 10000 in
  let riskAmount := (balance * riskPercent) / 100 in
  let riskPips := Qabs (entry - stopLoss) in
  match FormData.result formData with
  | Win =>
      let rewardPips := Qabs (exitPrice - entry) in
      let rMultiple :=
        if Js.ltb 0 riskPips then rewardPips / riskPips else 0 in
      Metrics.mk riskAmount rMultiple (rMultiple * riskAmount)
  | Loss =>
      let lossPips := Qabs (exitPrice - entry) in
      let rMultiple :=
        if Js.ltb 0 riskPips then - (lossPips / riskPips) else - (1) in
      Metrics.mk riskAmount rMultiple 0
  | BE => Metrics.mk riskAmount 0 0
  end.

End TradeDialog.

(* ================================================================== *)
(** ** [contexts/AppContext] and the accounts page: the account balance *)

Module AppContext.
Import Db.

Module Account.
Record t : Type := mk {
  id : string;
  startingBalance : Q;
  currentBalance : Q
}.
End Account.

(** [balanceChange] of [handleAddTrade]. *)
Definition balanceChange (trade : Trade.t) : Q :=
  match Trade.result trade with
  | Win => Trade.rewardAmount trade
  | Loss => - Trade.riskAmount trade
  | BE => 0
  end.




End AppContext.

(* ================================================================== *)
(** ** [components/charts/WinLossChart]: the slices of the pie *)

Module WinLossChart.
Import Db Analytics.

Module Slice.
Record t : Type := mk {
  name : string;
  value : nat
}.
End Slice.

Definition data (trades : list Trade.t) : list Slice.t :=
  let wins := List.length (filter isWin trades) in
  let losses := List.length (filter isLoss trades) in
  let breakeven :=
    List.length (filter (fun t => result_eqb (Trade.result t) BE) trades) in
  filter (fun d => (0 <? Slice.value d)%nat)
         [Slice.mk "Wins" wins; Slice.mk "Losses" losses;
          Slice.mk "Breakeven" breakeven].

End WinLossChart.

(* ================================================================== *)
(** ** Further notions used to state properties *)

Module Props.
Import Db Analytics.

(** The trades made in the session called [name], those tagged [tag], those
    of the month [key], those made in the emotion [e]. *)
Definition inSession (name : string) (t : Trade.t) : bool :=
  String.eqb (session_string (Trade.session t)) name.

Definition withTag (tag : string) (t : Trade.t) : bool :=
  String.eqb (Trade.setupTag t) tag.

Definition inMonth (key : string) (t : Trade.t) : bool :=
  String.eqb (monthKeyOf (Trade.date t)) key.


Definition isBE (t : Trade.t) : bool := result_eqb (Trade.result t) BE.

(** The sum of [f] over [l], first element outermost. *)
Definition sumQ {A : Type} (f : A -> Q) (l : list A) : Q :=
  fold_right (fun x acc => f x + acc) 0 l.

(** The R lost over [mid], a stretch of consecutive trades of [l]. *)
Definition hasDrop (l : list Trade.t) (d : Q) : Prop :=
  exists before mid after,
    l = before ++ mid ++ after /\ d == - sumQ Trade.rMultiple mid.

(** The largest R lost over a stretch that starts at the head of [l]. *)
Fixpoint maxDip (l : list Trade.t) : Q :=
  match l with
  | [] => 0
  | t :: l' => Qmax 0 (- Trade.rMultiple t + maxDip l')
  end.

(** The largest R lost over a stretch that starts anywhere in [l]. *)
Fixpoint worstDrop (l : list Trade.t) : Q :=
  match l with
  | [] => 0
  | _ :: l' => Qmax (maxDip l) (worstDrop l')
  end.

(** The bucket of an entry of [monthlyData] holds the count, the wins and
    the profit of the trades of [seen] that fall in the entry's month, and
    there is such a trade. *)
Definition bucketOf (seen : list Trade.t) (e : string * MonthBucket.t)
  : Prop :=
  let mine := filter (inMonth (fst e)) seen in
  MonthBucket.trades (snd e) = List.length mine
  /\ MonthBucket.wins (snd e) = List.length (filter isWin mine)
  /\ MonthBucket.profit (snd e) == sumQ Trade.rMultiple mine
  /\ (1 <= MonthBucket.trades (snd e))%nat.

(** [monthlyData] after the trades [seen]: each month once, each bucket
    that of its month, and a bucket for the month of every trade seen. *)
Definition monthlyInv (seen : list Trade.t) (d : Dict MonthBucket.t) : Prop :=
  NoDup (map fst d)
  /\ Forall (bucketOf seen) d
  /\ forall t, In t seen -> In (monthKeyOf (Trade.date t)) (map fst d).





(** [a <= b] in the order [localeCompare] sorts by. *)
Definition string_le (a b : string) : Prop := String.compare a b <> Gt.

(** The two win-rate messages. *)
Definition isWinRateMessage (i : Insight) : bool :=
  match i with
  | GreatWinRate _ | LowWinRate _ => true
  | _ => false
  end.

End Props.

(* ================================================================== *)
(** ** Facts about the runtime pieces *)

Section SortFacts.
Context {A : Type} (cmp : A -> A -> Z) (key : A -> Z).
Hypothesis cmp_key : forall a b, (cmp a b <= 0)%Z <-> (key a <= key b)%Z.

Let le (a b : A) : Prop := (key a <= key b)%Z.

Lemma insert_perm (x : A) (l : list A) :
  Permutation (Js.insert cmp x l) (x :: l).
Proof.
  induction l as [|y l IH]; simpl; [reflexivity|].
  destruct (cmp x y <=? 0)%Z; [reflexivity|].
  rewrite IH. apply perm_swap.
Qed.

Lemma sort_perm (l : list A) : Permutation (Js.sort cmp l) l.
Proof.
  induction l as [|x l IH]; simpl; [constructor|].
  rewrite insert_perm. now constructor.
Qed.

Lemma sort_length (l : list A) : List.length (Js.sort cmp l) = List.length l.
Proof. apply Permutation_length, sort_perm. Qed.

Lemma sort_in (l : list A) (x : A) : In x (Js.sort cmp l) <-> In x l.
Proof.
  split; apply Permutation_in; [|symmetry]; apply sort_perm.
Qed.

Lemma insert_sorted (x : A) (l : list A) :
  StronglySorted le l -> StronglySorted le (Js.insert cmp x l).
Proof.
  induction 1 as [|y l Hs IH Hy]; simpl.
  - repeat constructor.
  - destruct (Z.leb_spec (cmp x y) 0) as [Hc|Hc].
    + apply cmp_key in Hc.
      constructor; [now constructor|].
      constructor; [exact Hc|].
      rewrite Forall_forall in *. intros z Hz.
      unfold le in *. specialize (Hy z Hz). lia.
    + assert (Hyx : le y x).
      { unfold le. destruct (Z.le_gt_cases (key x) (key y)) as [H|H]; [|lia].
        apply cmp_key in H. lia. }
      constructor; [exact IH|].
      rewrite Forall_forall in *. intros z Hz.
      apply (Permutation_in _ (insert_perm x l)) in Hz.
      destruct Hz as [<-|Hz]; [exact Hyx|now apply Hy].
Qed.

Lemma sort_sorted (l : list A) : StronglySorted le (Js.sort cmp l).
Proof.
  induction l as [|x l IH]; simpl; [constructor|now apply insert_sorted].
Qed.

(** The first [n] elements of the sorted array come before all the others
    in the order. *)
Lemma sort_firstn_skipn (n : nat) (l : list A) (x y : A) :
  In x (firstn n (Js.sort cmp l)) -> In y (skipn n (Js.sort cmp l)) ->
  (key x <= key y)%Z.
Proof.
  generalize (sort_sorted l). generalize (Js.sort cmp l) as s.
  induction n as [|n IH]; intros s Hs Hx Hy; [destruct Hx|].
  destruct s as [|z s]; [destruct Hx|].
  simpl in Hx, Hy. inversion Hs as [|? ? Hs' Hz]; subst.
  destruct Hx as [<-|Hx].
  - rewrite Forall_forall in Hz. apply Hz.
    rewrite <- (firstn_skipn n s). apply in_or_app. now right.
  - now apply (IH s).
Qed.

End SortFacts.

(* ================================================================== *)
(** ** Properties of [calculateStats]: drawdown and profit factor *)

Section StatsFacts.
Import Db Analytics.

Lemma byDateAsc_key (a b : Trade.t) :
  (byDateAsc a b <= 0)%Z
  <-> (Js.getTime (Trade.date a) <= Js.getTime (Trade.date b))%Z.
Proof. unfold byDateAsc. lia. Qed.

Lemma byDateDesc_key (a b : Trade.t) :
  (byDateDesc a b <= 0)%Z
  <-> (- Js.getTime (Trade.date a) <= - Js.getTime (Trade.date b))%Z.
Proof. unfold byDateDesc. lia. Qed.

Lemma drawdown_fold_nonneg (l : list Trade.t) (s : Drawdown) :
  0 <= maxDrawdown s -> 0 <= maxDrawdown (fold_left drawdownStep l s).
Proof.
  revert s. induction l as [|t l IH]; intros s Hs; simpl; [exact Hs|].
  apply IH. unfold drawdownStep; simpl.
  eapply Qle_trans; [exact Hs|apply Q.le_max_l].
Qed.

(** On a non-empty collection the [maxDrawdown] field is what the drawdown
    loop leaves in its maximum. *)
Lemma maxDrawdown_nonempty (t : Trade.t) (l : list Trade.t) :
  TradingStats.maxDrawdown (calculateStats (t :: l))
  = maxDrawdown (drawdownLoop (Js.sort byDateAsc (t :: l))).
Proof. reflexivity. Qed.

(** C4.  For every trade collection, whatever its size and whatever the
    r-multiples (all of them negative included), the [maxDrawdown] field of
    [calculateStats] is greater than or equal to 0. *)
Theorem maxDrawdown_nonneg (trades : list Trade.t) :
  0 <= TradingStats.maxDrawdown (calculateStats trades).
Proof.
  destruct trades as [|t l].
  - simpl. apply Qle_refl.
  - rewrite maxDrawdown_nonempty. unfold drawdownLoop.
    apply drawdown_fold_nonneg. simpl. apply Qle_refl.
Qed.

(** The drawdown of a one-trade collection: the loop starts from a peak of
    0, so a first trade below 0 already counts as a drawdown. *)
Lemma maxDrawdown_singleton (t : Trade.t) :
  TradingStats.maxDrawdown (calculateStats [t])
  == Qmax 0 (- Trade.rMultiple t).
Proof.
  rewrite maxDrawdown_nonempty. simpl.
  set (r := Trade.rMultiple t).
  destruct (Q.max_spec 0 (0 + r)) as [[H1 H2]|[H1 H2]]; rewrite H2.
  - rewrite (Q.max_l 0 (0 + r - (0 + r))) by lra.
    rewrite Q.max_l; lra.
  - rewrite (Q.max_r 0 (0 - (0 + r))) by lra.
    rewrite Q.max_r; lra.
Qed.

(** C3, as the code has it.  The empty collection has [maxDrawdown] 0; a
    one-trade collection has [maxDrawdown] equal to the larger of 0 and the
    negated r-multiple of its trade, hence 0 exactly when that r-multiple is
    not negative. *)
Theorem maxDrawdown_at_most_one_trade :
  TradingStats.maxDrawdown (calculateStats []) == 0
  /\ forall t : Trade.t,
       TradingStats.maxDrawdown (calculateStats [t])
       == Qmax 0 (- Trade.rMultiple t)
       /\ (TradingStats.maxDrawdown (calculateStats [t]) == 0
           <-> 0 <= Trade.rMultiple t).
Proof.
  split; [reflexivity|]. intro t.
  split; [apply maxDrawdown_singleton|].
  rewrite maxDrawdown_singleton. split; intro H.
  - destruct (Q.max_spec 0 (- Trade.rMultiple t)) as [[H1 H2]|[H1 H2]];
      rewrite H2 in H; lra.
  - apply Q.max_l. lra.
Qed.

End StatsFacts.

Section ProfitFactorFacts.
Import Db Analytics Spec.

Lemma ltb_spec (a b : Q) : Js.ltb a b = true <-> a < b.
Proof.
  unfold Js.ltb. destruct (Qle_bool b a) eqn:E; simpl.
  - apply Qle_bool_iff in E. split; [discriminate|lra].
  - split; [intros _|reflexivity].
    apply Qnot_le_lt. intro H. apply Qle_bool_iff in H. congruence.
Qed.

Lemma ltb_false (a b : Q) : Js.ltb a b = false <-> b <= a.
Proof.
  unfold Js.ltb. destruct (Qle_bool b a) eqn:E; simpl.
  - apply Qle_bool_iff in E. tauto.
  - split; [discriminate|]. intro H. apply Qle_bool_iff in H. congruence.
Qed.

Lemma div_zero_iff (p l : Q) : 0 < l -> (p / l == 0 <-> p == 0).
Proof.
  intro Hl. split; intro H.
  - rewrite <- (Qmult_div_r p l) by lra. rewrite H. ring.
  - unfold Qdiv. rewrite H. ring.
Qed.

(** The three-way choice of the [profitFactor] field, for a loss total that
    is not negative (it is an absolute value). *)
Lemma profitFactorOf_cases (p l : Q) :
  0 <= l ->
  (profitFactorOf p l = Js.Infinity <-> l == 0 /\ 0 < p)
  /\ (isZero (profitFactorOf p l) <-> p == 0 \/ (l == 0 /\ p < 0))
  /\ (0 < l -> exists q, profitFactorOf p l = Js.Fin q /\ q == p / l).
Proof.
  intro Hl. unfold profitFactorOf.
  destruct (Js.ltb 0 l) eqn:El; [apply ltb_spec in El|apply ltb_false in El].
  - simpl. split; [|split].
    + split; [discriminate|intros [H _]; lra].
    + rewrite (div_zero_iff p l El). split; [now left|intros [H|[H _]]; [exact H|lra]].
    + intros _. eexists. split; reflexivity.
  - destruct (Js.ltb 0 p) eqn:Ep; [apply ltb_spec in Ep|apply ltb_false in Ep];
      simpl; (split; [|split]).
    + split; [intros _; split; lra|reflexivity].
    + split; [tauto|intros [H|[_ H]]; lra].
    + intro H. lra.
    + split; [discriminate|intros [_ H]; lra].
    + split; [intros _|reflexivity].
      destruct (Qlt_le_dec p 0) as [H|H]; [right; split; lra|left; lra].
    + intro H. lra.
Qed.

(** C2, as the code has it.  The [profitFactor] field is the infinity
    sentinel iff totalLoss == 0 and totalProfit > 0.  It is 0 iff
    totalProfit == 0, or totalLoss == 0 and totalProfit < 0: so it is 0 when
    both totals are 0, and also when there are losses and no profit.  When
    totalLoss > 0 it equals totalProfit / totalLoss. *)
Theorem profitFactor_cases (trades : list Trade.t) :
  let s := calculateStats trades in
  let p := TradingStats.totalProfit s in
  let l := TradingStats.totalLoss s in
  (TradingStats.profitFactor s = Js.Infinity <-> l == 0 /\ 0 < p)
  /\ (isZero (TradingStats.profitFactor s) <-> p == 0 \/ (l == 0 /\ p < 0))
  /\ (0 < l ->
      exists q, TradingStats.profitFactor s = Js.Fin q /\ q == p / l)
  /\ (l == 0 -> p == 0 -> isZero (TradingStats.profitFactor s)).
Proof.
  destruct trades as [|t rest].
  - simpl. split; [|split; [|split]].
    + split; [discriminate|intros [_ H]; lra].
    + split; [intros _; left|intros _]; reflexivity.
    + intro H. lra.
    + intros _ _. reflexivity.
  - cbv zeta.
    change (TradingStats.profitFactor (calculateStats (t :: rest)))
      with (profitFactorOf
              (TradingStats.totalProfit (calculateStats (t :: rest)))
              (TradingStats.totalLoss (calculateStats (t :: rest)))).
    assert (Hl : 0 <= TradingStats.totalLoss (calculateStats (t :: rest)))
      by apply Qabs_nonneg.
    destruct (profitFactorOf_cases
                (TradingStats.totalProfit (calculateStats (t :: rest)))
                (TradingStats.totalLoss (calculateStats (t :: rest))) Hl)
      as (H1 & H2 & H3).
    split; [exact H1|split; [exact H2|split; [exact H3|]]].
    intros _ Hp. apply H2. now left.
Qed.

(** C2 as stated fails: one losing trade gives a profit factor of 0 while
    totalLoss is 100. *)
Lemma profitFactor_zero_with_losses :
  let s := calculateStats [Examples.lossTrade] in
  ~ (isZero (TradingStats.profitFactor s)
     <-> TradingStats.totalLoss s == 0 /\ TradingStats.totalProfit s == 0).
Proof.
  cbv zeta. intros [H _].
  assert (Hz : isZero (TradingStats.profitFactor
                         (calculateStats [Examples.lossTrade])))
    by (vm_compute; reflexivity).
  destruct (H Hz) as [Hl _]. vm_compute in Hl. discriminate.
Qed.

(** C3 as stated fails: a single trade of -1R has a [maxDrawdown] of 1. *)
Lemma maxDrawdown_single_loss :
  (List.length [Examples.lossTrade] <= 1)%nat
  /\ TradingStats.maxDrawdown (calculateStats [Examples.lossTrade]) == 1
  /\ ~ TradingStats.maxDrawdown (calculateStats [Examples.lossTrade]) == 0.
Proof.
  split; [simpl; lia|].
  split; [vm_compute; reflexivity|].
  intro H. vm_compute in H. discriminate.
Qed.

End ProfitFactorFacts.

(* ================================================================== *)
(** ** Streaks *)

Section StreakFacts.
Import Db Analytics Spec.

Lemma runAtHead_le_longestRun (p : Trade.t -> bool) (l : list Trade.t) :
  (runAtHead p l <= longestRun p l)%nat.
Proof. destruct l; simpl; lia. Qed.

(** The loop invariant: the maxima after the loop are the maxima before it,
    the runs in progress extended into [l], or a run inside [l]. *)
Lemma streak_fold (l : list Trade.t) (s : Streaks) :
  (currentWinStreak s <= maxConsecutiveWins s)%nat ->
  (currentLossStreak s <= maxConsecutiveLosses s)%nat ->
  maxConsecutiveWins (fold_left streakStep l s)
  = Nat.max (maxConsecutiveWins s)
      (Nat.max (currentWinStreak s + runAtHead isWin l) (longestRun isWin l))
  /\ maxConsecutiveLosses (fold_left streakStep l s)
     = Nat.max (maxConsecutiveLosses s)
         (Nat.max (currentLossStreak s + runAtHead isLoss l)
                  (longestRun isLoss l)).
Proof.
  revert s. induction l as [|x l IH]; intros s Hw Hl.
  - simpl. lia.
  - pose proof (runAtHead_le_longestRun isWin l) as Rw.
    pose proof (runAtHead_le_longestRun isLoss l) as Rl.
    cbn [fold_left longestRun runAtHead].
    unfold isWin at 1 3, isLoss at 1 3. unfold streakStep at 2 4.
    destruct (Trade.result x); cbn [result_eqb];
      match goal with
      | |- context [fold_left streakStep l ?s'] =>
          destruct (IH s') as [E1 E2]; [cbn [maxConsecutiveWins maxConsecutiveLosses currentWinStreak currentLossStreak]; lia|cbn [maxConsecutiveWins maxConsecutiveLosses currentWinStreak currentLossStreak]; lia|]
      end; rewrite E1, E2; cbn [maxConsecutiveWins maxConsecutiveLosses currentWinStreak currentLossStreak]; clear IH E1 E2; split; lia.
Qed.

Lemma streakLoop_longestRun (l : list Trade.t) :
  maxConsecutiveWins (streakLoop l) = longestRun isWin l
  /\ maxConsecutiveLosses (streakLoop l) = longestRun isLoss l.
Proof.
  destruct (streak_fold l streaks0) as [E1 E2]; [simpl; lia|simpl; lia|].
  unfold streakLoop. rewrite E1, E2. simpl.
  pose proof (runAtHead_le_longestRun isWin l).
  pose proof (runAtHead_le_longestRun isLoss l). lia.
Qed.

(** The run at the head is a run, and no all-[p] prefix is longer. *)
Lemma runAtHead_is_prefix (p : Trade.t -> bool) (l : list Trade.t) :
  exists run after,
    l = run ++ after /\ List.length run = runAtHead p l
    /\ forallb p run = true.
Proof.
  induction l as [|x l (run & after & E & Hn & Hp)].
  - exists [], []. repeat split.
  - simpl. destruct (p x) eqn:Px.
    + exists (x :: run), after. simpl. rewrite Px, Hp, Hn, <- E. repeat split.
    + exists [], (x :: l). repeat split.
Qed.

Lemma prefix_le_runAtHead (p : Trade.t -> bool) (run after : list Trade.t) :
  forallb p run = true ->
  (List.length run <= runAtHead p (run ++ after))%nat.
Proof.
  induction run as [|x run IH]; simpl; intro H; [lia|].
  apply andb_true_iff in H. destruct H as [Px H].
  rewrite Px. specialize (IH H). lia.
Qed.

Lemma longestRun_hasRun (p : Trade.t -> bool) (l : list Trade.t) :
  hasRun p l (longestRun p l).
Proof.
  induction l as [|x l IH].
  - exists [], [], []. repeat split.
  - cbn [longestRun].
    destruct (Nat.max_spec (runAtHead p (x :: l)) (longestRun p l))
      as [[_ E]|[_ E]]; rewrite E.
    + destruct IH as (b & r & a & El & Hn & Hp).
      exists (x :: b), r, a.
      split; [rewrite El; reflexivity|split; assumption].
    + destruct (runAtHead_is_prefix p (x :: l)) as (r & a & El & Hn & Hp).
      exists [], r, a. split; [exact El|split; assumption].
Qed.

Lemma hasRun_le_longestRun (p : Trade.t -> bool) (l : list Trade.t) (n : nat) :
  hasRun p l n -> (n <= longestRun p l)%nat.
Proof.
  induction l as [|x l IH]; intros (b & r & a & El & Hn & Hp).
  - destruct b; [|discriminate]. destruct r; [|discriminate].
    simpl in Hn. lia.
  - cbn [longestRun]. destruct b as [|y b].
    + simpl in El. rewrite El, <- Hn.
      pose proof (prefix_le_runAtHead p r a Hp). lia.
    + simpl in El. injection El as _ El.
      assert (hasRun p l n) as H
        by (exists b, r, a; split; [exact El|split; assumption]).
      specialize (IH H). lia.
Qed.

(** C5.  For every trade collection, [maxConsecutiveWins] of
    [calculateStats] is the length of the longest run of consecutive Win
    outcomes in the trades sorted by occurred-at ascending, and
    [maxConsecutiveLosses] the length of the longest run of consecutive Loss
    outcomes; a BreakEven trade belongs to neither kind of run and sets both
    run counters of the loop back to zero. *)
Theorem maxConsecutive_longest_runs (trades : list Trade.t) :
  let sorted := Js.sort byDateAsc trades in
  let w := TradingStats.maxConsecutiveWins (calculateStats trades) in
  let l := TradingStats.maxConsecutiveLosses (calculateStats trades) in
  Permutation sorted trades
  /\ StronglySorted
       (fun a b =>
          (Js.getTime (Trade.date a) <= Js.getTime (Trade.date b))%Z) sorted
  /\ w = longestRun isWin sorted
  /\ (hasRun isWin sorted w /\ forall n, hasRun isWin sorted n -> (n <= w)%nat)
  /\ l = longestRun isLoss sorted
  /\ (hasRun isLoss sorted l /\ forall n, hasRun isLoss sorted n -> (n <= l)%nat)
  /\ (forall s t, Trade.result t = BE ->
        isWin t = false /\ isLoss t = false
        /\ currentWinStreak (streakStep s t) = 0%nat
        /\ currentLossStreak (streakStep s t) = 0%nat
        /\ maxConsecutiveWins (streakStep s t) = maxConsecutiveWins s
        /\ maxConsecutiveLosses (streakStep s t) = maxConsecutiveLosses s).
Proof.
  cbv zeta.
  assert (E : TradingStats.maxConsecutiveWins (calculateStats trades)
              = longestRun isWin (Js.sort byDateAsc trades)
              /\ TradingStats.maxConsecutiveLosses (calculateStats trades)
                 = longestRun isLoss (Js.sort byDateAsc trades)).
  { destruct trades as [|t rest]; [split; reflexivity|].
    exact (streakLoop_longestRun (Js.sort byDateAsc (t :: rest))). }
  destruct E as [Ew El]. rewrite Ew, El.
  split; [apply sort_perm|].
  split; [exact (sort_sorted byDateAsc _ byDateAsc_key trades)|].
  split; [reflexivity|].
  split; [split; [apply longestRun_hasRun|apply hasRun_le_longestRun]|].
  split; [reflexivity|].
  split; [split; [apply longestRun_hasRun|apply hasRun_le_longestRun]|].
  intros s t Ht. unfold isWin, isLoss, streakStep. rewrite Ht.
  repeat split.
Qed.

End StreakFacts.

(* ================================================================== *)
(** ** Category breakdowns *)

Section BreakdownFacts.
Import Db Analytics Spec.

Lemma filter_Subsequence {A : Type} (f : A -> bool) (l : list A) :
  Subsequence (filter f l) l.
Proof.
  induction l as [|x l IH]; simpl; [constructor|].
  destruct (f x); now constructor.
Qed.

Lemma filter_nonempty_existsb {A : Type} (f : A -> bool) (l : list A) :
  (0 <? List.length (filter f l))%nat = existsb f l.
Proof.
  induction l as [|x l IH]; simpl; [reflexivity|].
  destruct (f x); simpl; [reflexivity|exact IH].
Qed.

Lemma sessionEntry_session (trades : list Trade.t) (name : string) :
  SessionStats.session (sessionEntry trades name) = name.
Proof. reflexivity. Qed.

Lemma sessionEntry_trades (trades : list Trade.t) (name : string) :
  SessionStats.trades (sessionEntry trades name)
  = List.length
      (filter (fun t => String.eqb (session_string (Trade.session t)) name)
              trades).
Proof. reflexivity. Qed.

(** The surviving session names, for any list of names iterated. *)
Lemma sessionStats_names (trades : list Trade.t) (names : list string) :
  map SessionStats.session
      (filter (fun s => (0 <? SessionStats.trades s)%nat)
              (map (sessionEntry trades) names))
  = filter (tradedIn trades) names.
Proof.
  induction names as [|n names IH]; [reflexivity|].
  cbn [map filter]. rewrite sessionEntry_trades, filter_nonempty_existsb.
  fold (tradedIn trades n).
  destruct (tradedIn trades n); cbn [map]; rewrite IH; reflexivity.
Qed.

Lemma sessionStats_entry_facts (trades : list Trade.t) (s : SessionStats.t) :
  In s (calculateSessionStats trades) ->
  (1 <= SessionStats.trades s)%nat /\ In (SessionStats.session s) sessions.
Proof.
  intro Hs. unfold calculateSessionStats in Hs.
  apply filter_In in Hs. destruct Hs as [Hin Hpos].
  apply Nat.ltb_lt in Hpos. split; [lia|].
  apply in_map_iff in Hin. destruct Hin as (n & <- & Hn).
  rewrite sessionEntry_session. exact Hn.
Qed.

(** C6.  For every trade collection, every entry returned by
    [calculateSessionStats] has a trades count of at least 1, its session
    key is one of Asian, London, NY, Pre-NY, Post-NY, and the surviving
    entries appear in that declared order: their keys are the declared list
    with the sessions without a trade left out. *)
Theorem sessionStats_entries (trades : list Trade.t) :
  Forall (fun s => (1 <= SessionStats.trades s)%nat
                   /\ In (SessionStats.session s)
                         ["Asian"; "London"; "NY"; "Pre-NY"; "Post-NY"]%string)
         (calculateSessionStats trades)
  /\ map SessionStats.session (calculateSessionStats trades)
     = filter (tradedIn trades)
              ["Asian"; "London"; "NY"; "Pre-NY"; "Post-NY"]%string
  /\ Subsequence (map SessionStats.session (calculateSessionStats trades))
                 ["Asian"; "London"; "NY"; "Pre-NY"; "Post-NY"]%string.
Proof.
  assert (E : map SessionStats.session (calculateSessionStats trades)
              = filter (tradedIn trades) sessions)
    by apply sessionStats_names.
  split; [|split].
  - apply Forall_forall. intros s Hs.
    exact (sessionStats_entry_facts trades s Hs).
  - exact E.
  - rewrite E. apply filter_Subsequence.
Qed.

(** The selecting [reduce] returns one of the entries. *)
Lemma reduce_pick_in {A : Type} (better : A -> A -> bool) (l : list A)
  (init : A) :
  In (Js.reduce (fun best curr => if better curr best then curr else best)
                init l)
     (init :: l).
Proof.
  unfold Js.reduce. revert init.
  induction l as [|x l IH]; intro init; simpl; [now left|].
  destruct (better x init).
  - right. exact (IH x).
  - destruct (IH init) as [H|H]; [now left|right; now right].
Qed.

Lemma pick_in {A : Type} (better : A -> A -> bool) (l : list A) (x : A) :
  pick better l = Some x -> In x l.
Proof.
  destruct l as [|a l]; simpl; [discriminate|].
  intro H. injection H as <-.
  destruct (reduce_pick_in better (a :: l) a) as [H|H]; [now left|exact H].
Qed.

Lemma pick_nonempty {A : Type} (better : A -> A -> bool) (l : list A) :
  l <> [] -> exists x, pick better l = Some x.
Proof. destruct l; [congruence|]. intros _. eexists. reflexivity. Qed.

(** What [x?.name || 'N/A'] yields when an entry with a non-empty name is
    selected. *)
Lemma nameOr_pick {A : Type} (name : A -> string) (better : A -> A -> bool)
  (l : list A) :
  l <> [] ->
  (forall x, In x l -> name x <> ""%string) ->
  exists x, In x l /\ nameOr name (pick better l) = name x.
Proof.
  intros Hl Hn. destruct (pick_nonempty better l Hl) as [x Hx].
  exists x. pose proof (pick_in better l x Hx) as Hin.
  split; [exact Hin|]. rewrite Hx. simpl. unfold Js.or_string.
  destruct (String.eqb_spec (name x) ""); [now apply Hn in Hin|reflexivity].
Qed.

Lemma session_string_declared (s : Session) : In (session_string s) sessions.
Proof. destruct s; simpl; tauto. Qed.

Lemma declared_session_named (name : string) :
  In name sessions -> name <> ""%string /\ name <> NA.
Proof.
  simpl. intros [<-|[<-|[<-|[<-|[<-|[]]]]]]; split; discriminate.
Qed.

Lemma sessionStats_nonempty (t : Trade.t) (rest : list Trade.t) :
  calculateSessionStats (t :: rest) <> [].
Proof.
  intro H.
  pose proof (sessionStats_names (t :: rest) sessions) as E.
  fold (calculateSessionStats (t :: rest)) in E. rewrite H in E. simpl map in E.
  assert (Hin : In (session_string (Trade.session t))
                   (filter (tradedIn (t :: rest)) sessions)).
  { apply filter_In. split; [apply session_string_declared|].
    unfold tradedIn. simpl. now rewrite String.eqb_refl. }
  rewrite <- E in Hin. exact Hin.
Qed.

Lemma sessionStats_session_declared (trades : list Trade.t) (s : SessionStats.t) :
  In s (calculateSessionStats trades) -> In (SessionStats.session s) sessions.
Proof.
  intro H. exact (proj2 (sessionStats_entry_facts trades s H)).
Qed.

(** [[...new Set(l)]] holds exactly the elements of [l]. *)
Lemma distinct_fold_in (l seen : list string) (x : string) :
  In x (fold_left
          (fun seen x =>
             if existsb (String.eqb x) seen then seen else seen ++ [x])
          l seen)
  <-> In x seen \/ In x l.
Proof.
  revert seen. induction l as [|y l IH]; intro seen; simpl; [tauto|].
  rewrite IH. destruct (existsb (String.eqb y) seen) eqn:E.
  - apply existsb_exists in E. destruct E as (z & Hz & Ez).
    apply String.eqb_eq in Ez. subst z.
    split; [tauto|]. intros [H|[<-|H]]; tauto.
  - rewrite in_app_iff. simpl. tauto.
Qed.

Lemma distinct_in (l : list string) (x : string) :
  In x (Js.distinct l) <-> In x l.
Proof. unfold Js.distinct. rewrite distinct_fold_in. simpl. tauto. Qed.

Lemma setupStats_in (trades : list Trade.t) (s : SetupStats.t) :
  In s (calculateSetupStats trades) ->
  exists t, In t trades /\ SetupStats.setup s = Trade.setupTag t.
Proof.
  unfold calculateSetupStats. intro H.
  apply filter_In in H. destruct H as [H _].
  apply in_map_iff in H. destruct H as (n & <- & Hn).
  apply distinct_in, in_map_iff in Hn. destruct Hn as (t & <- & Ht).
  exists t. split; [exact Ht|reflexivity].
Qed.

Lemma setupStats_nonempty (t : Trade.t) (rest : list Trade.t) :
  calculateSetupStats (t :: rest) <> [].
Proof.
  intro H.
  assert (Hin : In (setupEntry (t :: rest) (Trade.setupTag t))
                   (calculateSetupStats (t :: rest))).
  { unfold calculateSetupStats. apply filter_In. split.
    - apply in_map, distinct_in. simpl. now left.
    - simpl. now rewrite String.eqb_refl. }
  rewrite H in Hin. exact Hin.
Qed.

(** The four best/worst fields on a non-empty collection, unfolded. *)
Lemma bestWorst_fields (t : Trade.t) (rest : list Trade.t) :
  let trades := t :: rest in
  let s := calculateStats trades in
  TradingStats.bestSession s
  = nameOr SessionStats.session
      (pick (fun curr best =>
               Js.ltb (SessionStats.avgR best) (SessionStats.avgR curr))
            (calculateSessionStats trades))
  /\ TradingStats.worstSession s
     = nameOr SessionStats.session
         (pick (fun curr worst =>
                  Js.ltb (SessionStats.avgR curr) (SessionStats.avgR worst))
               (calculateSessionStats trades))
  /\ TradingStats.bestSetup s
     = nameOr SetupStats.setup
         (pick (fun curr best =>
                  Js.ltb (SetupStats.avgR best) (SetupStats.avgR curr))
               (calculateSetupStats trades))
  /\ TradingStats.worstSetup s
     = nameOr SetupStats.setup
         (pick (fun curr worst =>
                  Js.ltb (SetupStats.avgR curr) (SetupStats.avgR worst))
               (calculateSetupStats trades)).
Proof. repeat split. Qed.

(** C9, as the code has it.  For every non-empty trade collection
    [bestSession] and [worstSession] are one of the five session names, so
    they differ from the 'N/A' sentinel.  [bestSetup] and [worstSetup] are
    the setup tag of some trade of the collection and differ from 'N/A'
    provided no trade has the empty string or the string 'N/A' as its setup
    tag. *)
Theorem bestWorst_available (trades : list Trade.t) :
  trades <> [] ->
  let s := calculateStats trades in
  (In (TradingStats.bestSession s) sessions
   /\ In (TradingStats.worstSession s) sessions
   /\ TradingStats.bestSession s <> NA
   /\ TradingStats.worstSession s <> NA)
  /\ ((forall t, In t trades ->
         Trade.setupTag t <> ""%string /\ Trade.setupTag t <> NA) ->
      (exists t, In t trades /\ TradingStats.bestSetup s = Trade.setupTag t)
      /\ (exists t, In t trades /\ TradingStats.worstSetup s = Trade.setupTag t)
      /\ TradingStats.bestSetup s <> NA
      /\ TradingStats.worstSetup s <> NA).
Proof.
  destruct trades as [|t rest]; [congruence|]. intros _. cbv zeta.
  destruct (bestWorst_fields t rest) as (E1 & E2 & E3 & E4).
  rewrite E1, E2, E3, E4. clear E1 E2 E3 E4.
  set (trades := t :: rest).
  assert (Hsess : forall better,
             In (nameOr SessionStats.session
                   (pick better (calculateSessionStats trades))) sessions).
  { intro better.
    destruct (nameOr_pick SessionStats.session better
                (calculateSessionStats trades)) as (x & Hx & ->).
    - apply sessionStats_nonempty.
    - intros x Hx.
      apply (declared_session_named _ (sessionStats_session_declared _ _ Hx)).
    - exact (sessionStats_session_declared _ _ Hx). }
  split.
  - repeat split; try apply Hsess;
      apply (declared_session_named _ (Hsess _)).
  - intro Htags.
    assert (Hset : forall better,
               exists t0, In t0 trades
                 /\ nameOr SetupStats.setup
                      (pick better (calculateSetupStats trades))
                    = Trade.setupTag t0).
    { intro better.
      destruct (nameOr_pick SetupStats.setup better
                  (calculateSetupStats trades)) as (x & Hx & ->).
      - apply setupStats_nonempty.
      - intros x Hx. destruct (setupStats_in _ _ Hx) as (t0 & Ht0 & ->).
        apply (Htags t0 Ht0).
      - exact (setupStats_in _ _ Hx). }
    split; [apply Hset|]. split; [apply Hset|].
    split.
    + destruct (Hset (fun curr best =>
                  Js.ltb (SetupStats.avgR best) (SetupStats.avgR curr)))
        as (t0 & Ht0 & ->).
      apply (Htags t0 Ht0).
    + destruct (Hset (fun curr worst =>
                  Js.ltb (SetupStats.avgR curr) (SetupStats.avgR worst)))
        as (t0 & Ht0 & ->).
      apply (Htags t0 Ht0).
Qed.

Lemma bestWorst_available_witness :
  let s := calculateStats [Examples.winTrade] in
  TradingStats.bestSession s <> NA
  /\ TradingStats.worstSession s <> NA
  /\ TradingStats.bestSetup s <> NA
  /\ TradingStats.worstSetup s <> NA.
Proof.
  destruct (bestWorst_available [Examples.winTrade]) as [Hs Hp];
    [discriminate|].
  destruct Hs as (_ & _ & H1 & H2).
  destruct Hp as (_ & _ & H3 & H4).
  - intros t [<-|[]]. split; discriminate.
  - repeat split; assumption.
Defined.

(** C9 as stated fails: with a single trade whose setup tag is the empty
    string, [bestSetup] and [worstSetup] are the 'N/A' sentinel. *)
Lemma bestSetup_NA_on_empty_tag :
  [Examples.untaggedTrade] <> []
  /\ TradingStats.bestSetup (calculateStats [Examples.untaggedTrade]) = NA
  /\ TradingStats.worstSetup (calculateStats [Examples.untaggedTrade]) = NA.
Proof.
  split; [discriminate|]. split; vm_compute; reflexivity.
Qed.

End BreakdownFacts.

(* ================================================================== *)
(** ** The monthly rollup *)

Section MonthlyFacts.
Import Db Analytics Spec.

Lemma dictUpdate_missing {V : Type} (d : Dict V) (key : string) (v : V)
  (f : V -> V) :
  dictGet d key = None ->
  dictUpdate (d ++ [(key, v)]) key f = d ++ [(key, f v)].
Proof.
  induction d as [|[k w] d IH]; simpl.
  - intros _. now rewrite String.eqb_refl.
  - destruct (String.eqb k key); [discriminate|].
    intro H. now rewrite IH.
Qed.

Lemma dictUpdate_Forall {V : Type} (R : string * V -> Prop) (d : Dict V)
  (key : string) (f : V -> V) :
  (forall k v, R (k, v) -> R (k, f v)) ->
  Forall R d -> Forall R (dictUpdate d key f).
Proof.
  intros Hf. induction 1 as [|[k v] d Hx Hd IH]; simpl; [constructor|].
  destruct (String.eqb k key); constructor; auto.
Qed.

Lemma monthlyStep_ok (known : string -> Prop) (d : Dict MonthBucket.t)
  (t : Trade.t) :
  known (monthKeyOf (Trade.date t)) ->
  Forall (bucketOk known) d -> Forall (bucketOk known) (monthlyStep d t).
Proof.
  intros Hk Hd. unfold monthlyStep.
  destruct (dictGet d (monthKeyOf (Trade.date t))) eqn:E.
  - apply dictUpdate_Forall; [|exact Hd].
    intros k v (H1 & H2 & H3). unfold bucketOk in *. simpl in *.
    destruct (isWin t); repeat split; try lia; exact H3.
  - rewrite dictUpdate_missing by exact E.
    apply Forall_app. split; [exact Hd|].
    constructor; [|constructor].
    unfold bucketOk. simpl. destruct (isWin t); repeat split; try lia; exact Hk.
Qed.

Lemma monthlyLoop_ok (known : string -> Prop) (l : list Trade.t)
  (d : Dict MonthBucket.t) :
  (forall t, In t l -> known (monthKeyOf (Trade.date t))) ->
  Forall (bucketOk known) d ->
  Forall (bucketOk known) (fold_left monthlyStep l d).
Proof.
  revert d. induction l as [|t l IH]; intros d Hl Hd; simpl; [exact Hd|].
  apply IH.
  - intros t' Ht'. apply Hl. now right.
  - apply monthlyStep_ok; [apply Hl; now left|exact Hd].
Qed.

Lemma of_nat_nonneg (n : nat) : 0 <= Js.of_nat n.
Proof.
  unfold Js.of_nat. change 0 with (inject_Z 0). rewrite <- Zle_Qle. lia.
Qed.

Lemma of_nat_le (m n : nat) : (m <= n)%nat -> Js.of_nat m <= Js.of_nat n.
Proof. intro H. unfold Js.of_nat. rewrite <- Zle_Qle. lia. Qed.

Lemma of_nat_pos (n : nat) : (1 <= n)%nat -> 0 < Js.of_nat n.
Proof.
  intro H. unfold Js.of_nat. change 0 with (inject_Z 0). rewrite <- Zlt_Qlt. lia.
Qed.

(** A percentage of [w] out of [n] lies between 0 and 100. *)
Lemma percentage_bounds (w n : nat) :
  (1 <= n)%nat -> (w <= n)%nat ->
  0 <= Js.of_nat w / Js.of_nat n * 100
  /\ Js.of_nat w / Js.of_nat n * 100 <= 100.
Proof.
  intros Hn Hw.
  pose proof (of_nat_pos n Hn) as Pn.
  pose proof (of_nat_nonneg w) as Pw.
  pose proof (of_nat_le w n Hw) as Pwn.
  assert (H0 : 0 <= Js.of_nat w / Js.of_nat n).
  { apply Qle_shift_div_l; [exact Pn|]. lra. }
  assert (H1 : Js.of_nat w / Js.of_nat n <= 1).
  { apply Qle_shift_div_r; [exact Pn|]. lra. }
  split; lra.
Qed.

(** C10.  For every trade collection, every record emitted by
    [calculateMonthlyPerformance] has a trades count of at least 1 (its
    month is the month of some trade of the collection), so the divisor of
    the win rate is never zero, and its [winRate] lies in [0, 100]. *)
Theorem monthly_records (trades : list Trade.t) :
  Forall (fun r =>
            (1 <= MonthlyPerformance.trades r)%nat
            /\ 0 <= MonthlyPerformance.winRate r
            /\ MonthlyPerformance.winRate r <= 100
            /\ exists t, In t trades
                 /\ MonthlyPerformance.month r = monthKeyOf (Trade.date t))
         (calculateMonthlyPerformance trades).
Proof.
  set (known := fun k => exists t, In t trades /\ k = monthKeyOf (Trade.date t)).
  assert (Hd : Forall (bucketOk known) (fold_left monthlyStep trades [])).
  { apply monthlyLoop_ok; [|constructor].
    intros t Ht. exists t. split; [exact Ht|reflexivity]. }
  unfold calculateMonthlyPerformance.
  apply Forall_forall. intros r Hr.
  apply in_map_iff in Hr. destruct Hr as ([k b] & <- & He).
  apply sort_in in He.
  rewrite Forall_forall in Hd. destruct (Hd _ He) as (H1 & H2 & H3).
  simpl in *.
  destruct (percentage_bounds _ _ H1 H2) as [P0 P1].
  repeat split; assumption.
Qed.

End MonthlyFacts.

(* ================================================================== *)
(** ** The equity curve *)

Section EquityFacts.
Import Db Analytics.

Lemma equity_fold (start : Q) (l : list Trade.t) (b : Q)
  (acc : list EquityPoint.t) :
  map EquityPoint.balance (snd (fold_left (equityStep start) l (b, acc)))
  = map EquityPoint.balance acc
    ++ Spec.runningBalances balanceChange b l.
Proof.
  revert b acc. induction l as [|t l IH]; intros b acc; simpl.
  - now rewrite app_nil_r.
  - unfold equityStep at 2. cbn [fst snd]. rewrite IH.
    rewrite map_app, <- app_assoc. reflexivity.
Qed.

(** The balances of the curve: the starting balance, then the running total
    to which each trade, in date order, adds its reward amount less, for a
    loss, its risk amount. *)
Lemma equityCurve_balances (trades : list Trade.t) (startingBalance : Q) :
  map EquityPoint.balance (calculateEquityCurve trades startingBalance)
  = startingBalance
    :: Spec.runningBalances balanceChange startingBalance
         (Js.sort byDateAsc trades).
Proof. unfold calculateEquityCurve. now rewrite equity_fold. Qed.



Lemma last_cons (m : list Q) (x d : Q) : last (x :: m) d = last m x.
Proof.
  revert x d. induction m as [|y m IH]; intros x d; [reflexivity|].
  change (last (x :: y :: m) d) with (last (y :: m) d).
  rewrite (IH y d). symmetry. apply IH.
Qed.

Lemma runningBalances_last (c : Trade.t -> Q) (l : list Trade.t) (b : Q) :
  last (Spec.runningBalances c b l) b == b + Spec.total c l.
Proof.
  revert b. induction l as [|t l IH]; intro b.
  - simpl. ring.
  - change (last (Spec.runningBalances c b (t :: l)) b)
      with (last ((b + c t) :: Spec.runningBalances c (b + c t) l) b).
    rewrite last_cons, IH. simpl. ring.
Qed.


Lemma total_perm (c : Trade.t -> Q) (l1 l2 : list Trade.t) :
  Permutation l1 l2 -> Spec.total c l1 == Spec.total c l2.
Proof.
  induction 1 as [|x l1 l2 _ IH|x y l|l1 l2 l3 _ IH1 _ IH2]; simpl.
  - reflexivity.
  - rewrite IH. reflexivity.
  - ring.
  - rewrite IH1. exact IH2.
Qed.


(** C1 at a breakeven trade with a reward amount of 50 and a starting
    balance of 10000: the curve goes from 10000 to 10050, where a breakeven
    trade is to leave the balance unchanged. *)
Theorem equityCurve_breakeven_reward :
  Trade.result Examples.beTradeWithReward = BE
  /\ exists p0 p1,
       calculateEquityCurve [Examples.beTradeWithReward] 10000 = [p0; p1]
       /\ EquityPoint.balance p0 == 10000
       /\ EquityPoint.balance p1 == 10050
       /\ Spec.balanceChange Examples.beTradeWithReward == 0
       /\ ~ EquityPoint.balance p1
            == EquityPoint.balance p0
               + Spec.balanceChange Examples.beTradeWithReward.
Proof.
  split; [reflexivity|].
  eexists. eexists. split; [reflexivity|].
  split; [reflexivity|]. split; [reflexivity|]. split; [reflexivity|].
  intro H. vm_compute in H. discriminate.
Qed.

End EquityFacts.

(* ================================================================== *)
(** ** The insight rules *)

Section InsightFacts.
Import Db Analytics Spec.

(** None of the other rules produces the consecutive-loss warning. *)
Ltac no_warning :=
  repeat match goal with
         | |- context [match ?x with _ => _ end] => destruct x
         end; reflexivity.

Lemma bestSessionRule_no_warning trades stats :
  filter isConsecutiveLossesWarning (bestSessionRule trades stats) = [].
Proof. unfold bestSessionRule. no_warning. Qed.

Lemma worstSessionRule_no_warning trades stats :
  filter isConsecutiveLossesWarning (worstSessionRule trades stats) = [].
Proof. unfold worstSessionRule. no_warning. Qed.

Lemma bestSetupRule_no_warning trades stats :
  filter isConsecutiveLossesWarning (bestSetupRule trades stats) = [].
Proof. unfold bestSetupRule. no_warning. Qed.

Lemma riskRule_no_warning trades :
  filter isConsecutiveLossesWarning (riskRule trades) = [].
Proof. unfold riskRule. no_warning. Qed.

Lemma winRateRule_no_warning trades stats :
  filter isConsecutiveLossesWarning (winRateRule trades stats) = [].
Proof. unfold winRateRule. no_warning. Qed.

Lemma profitFactorRule_no_warning stats :
  filter isConsecutiveLossesWarning (profitFactorRule stats) = [].
Proof. unfold profitFactorRule. no_warning. Qed.

Lemma emotionRule_no_warning trades :
  filter isConsecutiveLossesWarning (emotionRule trades) = [].
Proof. unfold emotionRule. no_warning. Qed.

(** The warnings in the whole list are those of the fifth rule. *)
Lemma insights_warnings (t : Trade.t) (rest : list Trade.t)
  (stats : TradingStats.t) :
  filter isConsecutiveLossesWarning (generateInsights (t :: rest) stats)
  = consecutiveLossesRule (t :: rest) stats.
Proof.
  unfold generateInsights. rewrite !filter_app.
  rewrite bestSessionRule_no_warning, worstSessionRule_no_warning,
    bestSetupRule_no_warning, riskRule_no_warning, winRateRule_no_warning,
    profitFactorRule_no_warning, emotionRule_no_warning.
  rewrite app_nil_r. simpl.
  unfold consecutiveLossesRule.
  repeat match goal with
         | |- context [if ?x then _ else _] => destruct x
         end; reflexivity.
Qed.

(** The trades the rule counts losses in are the most recently dated ones:
    five of them (all, if there are fewer), none older than a trade left
    out. *)
Lemma recentTrades_most_recent (trades : list Trade.t) :
  List.length (recentTrades trades) = Nat.min 5 (List.length trades)
  /\ exists older,
       Permutation trades (recentTrades trades ++ older)
       /\ forall x y, In x (recentTrades trades) -> In y older ->
            (Js.getTime (Trade.date y) <= Js.getTime (Trade.date x))%Z.
Proof.
  unfold recentTrades, Js.slice0. split.
  - rewrite length_firstn, sort_length. reflexivity.
  - exists (skipn 5 (Js.sort byDateDesc trades)). split.
    + rewrite firstn_skipn. symmetry. apply sort_perm.
    + intros x y Hx Hy.
      pose proof (sort_firstn_skipn byDateDesc _ byDateDesc_key
                    5 trades x y Hx Hy) as H.
      cbv beta in H. lia.
Qed.

(** C7.  For every non-empty trade collection and every TradingStats,
    [generateInsights] emits the consecutive-loss warning only if
    maxConsecutiveLosses >= 3 and, independently of the statistics, at least
    3 of the 5 most recently dated trades are losses; when both hold it
    emits exactly one such warning (reporting maxConsecutiveLosses), and
    never more than one. *)
Theorem consecutiveLossWarning_rule (trades : list Trade.t)
  (stats : TradingStats.t) :
  trades <> [] ->
  let warnings :=
    filter isConsecutiveLossesWarning (generateInsights trades stats) in
  let recent := recentTrades trades in
  (warnings <> [] ->
   (3 <= TradingStats.maxConsecutiveLosses stats)%nat
   /\ (3 <= List.length (filter isLoss recent))%nat)
  /\ ((3 <= TradingStats.maxConsecutiveLosses stats)%nat ->
      (3 <= List.length (filter isLoss recent))%nat ->
      warnings
      = [ConsecutiveLossesWarning (TradingStats.maxConsecutiveLosses stats)])
  /\ (List.length warnings <= 1)%nat
  /\ List.length recent = Nat.min 5 (List.length trades)
  /\ exists older,
       Permutation trades (recent ++ older)
       /\ forall x y, In x recent -> In y older ->
            (Js.getTime (Trade.date y) <= Js.getTime (Trade.date x))%Z.
Proof.
  destruct trades as [|t rest]; [congruence|]. intros _. cbv zeta.
  rewrite insights_warnings. unfold consecutiveLossesRule, recentLosses.
  destruct (Nat.leb_spec 3 (TradingStats.maxConsecutiveLosses stats)) as [H1|H1];
    [destruct (Nat.leb_spec 3
                 (List.length (filter isLoss (recentTrades (t :: rest)))))
       as [H2|H2]|].
  all: split; [intro H; try congruence; split; assumption|].
  all: split; [intros; try lia; reflexivity|].
  all: split; [simpl; lia|].
  all: apply recentTrades_most_recent.
Qed.

Lemma consecutiveLossWarning_rule_witness :
  let stats := calculateStats Examples.losingWeek in
  filter isConsecutiveLossesWarning
         (generateInsights Examples.losingWeek stats)
  = [ConsecutiveLossesWarning 3].
Proof.
  cbv zeta.
  destruct (consecutiveLossWarning_rule Examples.losingWeek
              (calculateStats Examples.losingWeek)) as (_ & H & _);
    [discriminate|].
  rewrite H.
  - reflexivity.
  - vm_compute. lia.
  - vm_compute. lia.
Defined.

(** C8.  For the empty trade collection and any TradingStats argument,
    [generateInsights] returns a list of length exactly 1 that holds the
    onboarding prompt and nothing from the other rules. *)
Theorem insights_empty (stats : TradingStats.t) :
  generateInsights [] stats = [StartLogging]
  /\ List.length (generateInsights [] stats) = 1%nat.
Proof. split; reflexivity. Qed.

End InsightFacts.

(* ================================================================== *)
(** ** The worked example of the specification *)

Section WorkedExample.
Import Db Analytics.

(** One win of 2R (reward 200) and one loss of -1R (risk 100), starting
    balance 10000: win rate 50, average R 0.5, profit factor 2, drawdown 1,
    and an equity curve through 10000, 10200 and 10100. *)
Example stats_of_win_and_loss :
  let s := calculateStats [Examples.winTrade; Examples.lossTrade] in
  TradingStats.totalTrades s = 2%nat
  /\ TradingStats.winRate s == 50
  /\ TradingStats.avgR s == 1 # 2
  /\ TradingStats.expectancy s = TradingStats.avgR s
  /\ (exists q, TradingStats.profitFactor s = Js.Fin q /\ q == 2)
  /\ TradingStats.maxConsecutiveWins s = 1%nat
  /\ TradingStats.maxConsecutiveLosses s = 1%nat
  /\ TradingStats.maxDrawdown s == 1
  /\ TradingStats.bestSession s = "London"%string
  /\ TradingStats.bestSetup s = "Breakout"%string.
Proof.
  cbv zeta. repeat split; try (vm_compute; reflexivity).
  eexists. split; vm_compute; reflexivity.
Qed.

Example equityCurve_of_win_and_loss :
  Forall2 Qeq
    (map EquityPoint.balance
       (calculateEquityCurve [Examples.lossTrade; Examples.winTrade] 10000))
    [10000; 10200; 10100]
  /\ map EquityPoint.date
       (calculateEquityCurve [Examples.lossTrade; Examples.winTrade] 10000)
     = ["Start"; "1/1/2024"; "1/2/2024"]%string.
Proof.
  split; [|vm_compute; reflexivity].
  repeat constructor; vm_compute; reflexivity.
Qed.

Example monthly_of_sample_trades :
  map (fun r => (MonthlyPerformance.month r, MonthlyPerformance.trades r))
      (calculateMonthlyPerformance
         [Examples.untaggedTrade; Examples.winTrade; Examples.lossTrade])
  = [("2024-01", 2%nat); ("2024-02", 1%nat)]%string.
Proof. vm_compute. reflexivity. Qed.

End WorkedExample.

(* ================================================================== *)
(** ** Sums, counts and the shape of the equity curve *)

Section CurveFacts.
Import Db Analytics Props.

Lemma reduce_sum {A : Type} (f : A -> Q) (l : list A) (a : Q) :
  fold_left (fun sum x => sum + f x) l a == a + sumQ f l.
Proof.
  revert a. induction l as [|x l IH]; intro a; simpl; [ring|].
  rewrite IH. ring.
Qed.

Lemma sumOf_sumQ (f : Trade.t -> Q) (l : list Trade.t) : sumOf f l == sumQ f l.
Proof. unfold sumOf, Js.reduce. rewrite reduce_sum. ring. Qed.

Lemma sumQ_perm {A : Type} (f : A -> Q) (l1 l2 : list A) :
  Permutation l1 l2 -> sumQ f l1 == sumQ f l2.
Proof.
  induction 1 as [|x l1 l2 _ IH|x y l|l1 l2 l3 _ IH1 _ IH2]; simpl.
  - reflexivity.
  - rewrite IH. reflexivity.
  - ring.
  - rewrite IH1. exact IH2.
Qed.

Lemma filter_perm_length {A : Type} (p : A -> bool) (l1 l2 : list A) :
  Permutation l1 l2 ->
  List.length (filter p l1) = List.length (filter p l2).
Proof.
  induction 1 as [|x l1 l2 _ IH|x y l|l1 l2 l3 _ IH1 _ IH2]; simpl.
  - reflexivity.
  - destruct (p x); simpl; lia.
  - destruct (p x), (p y); reflexivity.
  - lia.
Qed.

Lemma equity_fold_points (start : Q) (l : list Trade.t) (b : Q)
  (acc : list EquityPoint.t) :
  exists rest,
    snd (fold_left (equityStep start) l (b, acc)) = acc ++ rest
    /\ List.length rest = List.length l
    /\ map EquityPoint.date rest
       = map (fun t => Js.toLocaleDateString (Trade.date t)) l
    /\ Forall (fun p => EquityPoint.equity p == EquityPoint.balance p - start)
              rest.
Proof.
  revert b acc. induction l as [|t l IH]; intros b acc.
  - exists []. simpl. rewrite app_nil_r. repeat split. constructor.
  - cbn [fold_left]. unfold equityStep at 2. cbn [fst snd].
    destruct (IH (b + balanceChange t)
                (acc ++ [EquityPoint.mk
                           (Js.toLocaleDateString (Trade.date t))
                           (b + balanceChange t - start)
                           (b + balanceChange t)]))
      as (rest & E & Hlen & Hdate & Heq).
    eexists (_ :: rest). rewrite E, <- app_assoc. cbn [app].
    split; [reflexivity|]. split; [simpl; now rewrite Hlen|].
    split; [simpl; now rewrite Hdate|].
    constructor; [simpl; reflexivity|exact Heq].
Qed.

(** X1.  The equity curve has one point more than there are trades: the
    point labelled "Start" with equity 0 and the starting balance, then one
    point per trade in date order, labelled with the trade's date.  Every
    point's equity is its balance less the starting balance.  The curve has
    at most one point, which is when the chart shows its empty state, exactly
    when there is no trade. *)
Theorem equityCurve_shape (trades : list Trade.t) (startingBalance : Q) :
  let curve := calculateEquityCurve trades startingBalance in
  List.length curve = S (List.length trades)
  /\ (exists rest,
        curve = EquityPoint.mk "Start" 0 startingBalance :: rest
        /\ map EquityPoint.date rest
           = map (fun t => Js.toLocaleDateString (Trade.date t))
                 (Js.sort byDateAsc trades))
  /\ Forall (fun p => EquityPoint.equity p
                      == EquityPoint.balance p - startingBalance) curve
  /\ ((List.length curve <= 1)%nat <-> trades = []).
Proof.
  cbv zeta. unfold calculateEquityCurve.
  destruct (equity_fold_points startingBalance (Js.sort byDateAsc trades)
              startingBalance [EquityPoint.mk "Start" 0 startingBalance])
    as (rest & E & Hlen & Hdate & Heq).
  rewrite E. rewrite sort_length in Hlen. cbn [app List.length].
  split; [now rewrite Hlen|].
  split; [exists rest; split; [reflexivity|exact Hdate]|].
  split.
  - constructor; [simpl; ring|exact Heq].
  - rewrite Hlen. destruct trades; simpl; split; intro H;
      try reflexivity; try lia; discriminate.
Qed.

Lemma total_balanceChange (l : list Trade.t) :
  Spec.total balanceChange l
  == sumQ Trade.rewardAmount l - sumQ Trade.riskAmount (filter isLoss l).
Proof.
  induction l as [|t l IH]; simpl; [ring|].
  rewrite IH. unfold balanceChange.
  destruct (isLoss t); simpl; ring.
Qed.

(** X2.  The last balance of the equity curve is the starting balance plus
    the reward amounts of all trades less the risk amounts of the losing
    trades; the order in which the trades are given does not enter. *)
Theorem equityCurve_final_balance (trades : list Trade.t)
  (startingBalance : Q) :
  last (map EquityPoint.balance (calculateEquityCurve trades startingBalance))
       startingBalance
  == startingBalance + sumQ Trade.rewardAmount trades
     - sumQ Trade.riskAmount (filter isLoss trades).
Proof.
  rewrite equityCurve_balances, last_cons, runningBalances_last.
  rewrite (total_perm _ _ _ (sort_perm byDateAsc trades)).
  rewrite total_balanceChange. ring.
Qed.

Lemma result_partition (l : list Trade.t) :
  (List.length (filter isWin l) + List.length (filter isLoss l)
   + List.length (filter isBE l))%nat = List.length l.
Proof.
  induction l as [|t l IH]; simpl; [reflexivity|].
  unfold isWin at 1, isLoss at 1, isBE at 1.
  destruct (Trade.result t); simpl; lia.
Qed.

(** X3.  In the statistics of any collection, totalTrades is the number of
    trades and is the number of wins, losses and breakeven trades together;
    winRate lies between 0 and 100; expectancy is avgR, and avgR times the
    number of trades is the sum of the r-multiples; totalProfit is the sum of
    the reward amounts of the wins and totalLoss is not negative. *)
Theorem stats_totals (trades : list Trade.t) :
  let s := calculateStats trades in
  TradingStats.totalTrades s = List.length trades
  /\ (List.length (filter isWin trades) + List.length (filter isLoss trades)
      + List.length (filter isBE trades))%nat = TradingStats.totalTrades s
  /\ 0 <= TradingStats.winRate s /\ TradingStats.winRate s <= 100
  /\ TradingStats.expectancy s = TradingStats.avgR s
  /\ TradingStats.avgR s * Js.of_nat (TradingStats.totalTrades s)
     == sumQ Trade.rMultiple trades
  /\ TradingStats.totalProfit s == sumQ Trade.rewardAmount (filter isWin trades)
  /\ 0 <= TradingStats.totalLoss s.
Proof.
  cbv zeta. destruct trades as [|t rest].
  - simpl. repeat split; try reflexivity; try lra.
  - set (trades := t :: rest).
    change (TradingStats.totalTrades (calculateStats trades))
      with (List.length trades).
    split; [reflexivity|]. split; [apply result_partition|].
    assert (Hn : (1 <= List.length trades)%nat) by (simpl; lia).
    destruct (percentage_bounds (List.length (filter isWin trades))
                (List.length trades) Hn (filter_length_le _ _)) as [B0 B1].
    split; [exact B0|]. split; [exact B1|]. split; [reflexivity|].
    split; [|split].
    + change (TradingStats.avgR (calculateStats trades))
        with (sumOf Trade.rMultiple trades / Js.of_nat (List.length trades)).
      rewrite sumOf_sumQ. field.
      pose proof (of_nat_pos _ Hn). lra.
    + change (TradingStats.totalProfit (calculateStats trades))
        with (sumOf Trade.rewardAmount (filter isWin trades)).
      apply sumOf_sumQ.
    + apply Qabs_nonneg.
Qed.

Lemma runAtHead_le_filter (p : Trade.t -> bool) (l : list Trade.t) :
  (Spec.runAtHead p l <= List.length (filter p l))%nat.
Proof.
  induction l as [|x l IH]; simpl; [lia|]. destruct (p x); simpl; lia.
Qed.

Lemma longestRun_le_filter (p : Trade.t -> bool) (l : list Trade.t) :
  (Spec.longestRun p l <= List.length (filter p l))%nat.
Proof.
  induction l as [|x l IH]; [simpl; lia|].
  cbn [Spec.longestRun].
  pose proof (runAtHead_le_filter p (x :: l)).
  assert (List.length (filter p l) <= List.length (filter p (x :: l)))%nat
    by (simpl; destruct (p x); simpl; lia).
  lia.
Qed.

Lemma longestRun_zero (p : Trade.t -> bool) (l : list Trade.t) :
  Spec.longestRun p l = 0%nat <-> List.length (filter p l) = 0%nat.
Proof.
  induction l as [|x l IH]; [simpl; tauto|].
  cbn [Spec.longestRun Spec.runAtHead filter].
  destruct (p x); [cbn [List.length]; split; intro H; lia|].
  rewrite Nat.max_0_l. exact IH.
Qed.

(** X4.  The longest winning streak is at most the number of wins and is 0
    exactly when there is no win; likewise the longest losing streak and the
    losses; the two together are at most the number of trades. *)
Theorem streaks_bounded (trades : list Trade.t) :
  let s := calculateStats trades in
  (TradingStats.maxConsecutiveWins s <= List.length (filter isWin trades))%nat
  /\ (TradingStats.maxConsecutiveLosses s
      <= List.length (filter isLoss trades))%nat
  /\ (TradingStats.maxConsecutiveWins s = 0%nat
      <-> List.length (filter isWin trades) = 0%nat)
  /\ (TradingStats.maxConsecutiveLosses s = 0%nat
      <-> List.length (filter isLoss trades) = 0%nat)
  /\ (TradingStats.maxConsecutiveWins s + TradingStats.maxConsecutiveLosses s
      <= List.length trades)%nat.
Proof.
  cbv zeta.
  assert (E : TradingStats.maxConsecutiveWins (calculateStats trades)
              = Spec.longestRun isWin (Js.sort byDateAsc trades)
              /\ TradingStats.maxConsecutiveLosses (calculateStats trades)
                 = Spec.longestRun isLoss (Js.sort byDateAsc trades)).
  { destruct trades as [|t rest]; [split; reflexivity|].
    exact (streakLoop_longestRun (Js.sort byDateAsc (t :: rest))). }
  destruct E as [-> ->].
  pose proof (sort_perm byDateAsc trades) as P.
  rewrite <- (filter_perm_length isWin _ _ P).
  rewrite <- (filter_perm_length isLoss _ _ P).
  pose proof (longestRun_le_filter isWin (Js.sort byDateAsc trades)) as Hw.
  pose proof (longestRun_le_filter isLoss (Js.sort byDateAsc trades)) as Hl.
  split; [exact Hw|]. split; [exact Hl|].
  split; [apply longestRun_zero|]. split; [apply longestRun_zero|].
  pose proof (result_partition (Js.sort byDateAsc trades)) as R.
  rewrite (sort_length byDateAsc trades) in R. lia.
Qed.

End CurveFacts.

(* ================================================================== *)
(** ** The drawdown as the largest loss over consecutive trades *)

Section DrawdownFacts.
Import Db Analytics Props.

(** Replaces each maximum by a variable with its two defining cases. *)
Ltac name_max a b :=
  lazymatch a with context [Qmax _ _] => fail | _ => idtac end;
  lazymatch b with context [Qmax _ _] => fail | _ => idtac end;
  let H := fresh "Hmax" in
  let x := fresh "m" in
  pose proof (Q.max_spec a b) as H;
  set (x := Qmax a b) in *; clearbody x.

Ltac max_cases :=
  repeat match goal with
         | |- context [Qmax ?a ?b] => name_max a b
         | H : context [Qmax ?a ?b] |- _ => name_max a b
         end;
  repeat match goal with
         | H : _ \/ _ |- _ => destruct H as [[? ?]|[? ?]]
         end;
  lra.

Lemma maxDip_nonneg (l : list Trade.t) : 0 <= maxDip l.
Proof. destruct l; simpl; [lra|apply Q.le_max_l]. Qed.

Lemma maxDip_le_worstDrop (l : list Trade.t) : maxDip l <= worstDrop l.
Proof. destruct l; [simpl; lra|apply Q.le_max_l]. Qed.

(** The loop invariant: the maximum after the loop is the maximum before
    it, the fall in progress continued into [l], or a fall inside [l]. *)
Lemma drawdown_fold_worst (l : list Trade.t) (s : Drawdown) :
  runningBalance s <= peak s ->
  peak s - runningBalance s <= maxDrawdown s ->
  maxDrawdown (fold_left drawdownStep l s)
  == Qmax (maxDrawdown s)
       (Qmax (peak s - runningBalance s + maxDip l) (worstDrop l)).
Proof.
  revert s. induction l as [|t l IH]; intros s Hp Hd.
  - simpl. max_cases.
  - cbn [fold_left]. rewrite IH.
    + unfold drawdownStep. cbn [peak maxDrawdown runningBalance].
      cbn [worstDrop maxDip].
      pose proof (maxDip_nonneg l). pose proof (maxDip_le_worstDrop l).
      generalize dependent (maxDip l). generalize dependent (worstDrop l).
      generalize dependent (Trade.rMultiple t).
      generalize dependent (peak s). generalize dependent (runningBalance s).
      generalize dependent (maxDrawdown s). clear.
      intros d b p Hp Hd r w m Hm Hmw. max_cases.
    + unfold drawdownStep. cbn [peak runningBalance]. apply Q.le_max_r.
    + unfold drawdownStep. cbn [peak maxDrawdown runningBalance].
      apply Q.le_max_r.
Qed.

Lemma drawdownLoop_worstDrop (l : list Trade.t) :
  maxDrawdown (drawdownLoop l) == worstDrop l.
Proof.
  unfold drawdownLoop. rewrite drawdown_fold_worst; simpl; try lra.
  pose proof (maxDip_nonneg l). pose proof (maxDip_le_worstDrop l).
  generalize dependent (maxDip l). generalize dependent (worstDrop l).
  intros w m Hm Hmw. max_cases.
Qed.

Lemma maxDip_is_prefix (l : list Trade.t) :
  exists pre post, l = pre ++ post /\ maxDip l == - sumQ Trade.rMultiple pre.
Proof.
  induction l as [|t l (pre & post & E & H)].
  - exists [], []. split; [reflexivity|simpl; ring].
  - cbn [maxDip].
    destruct (Q.max_spec 0 (- Trade.rMultiple t + maxDip l)) as [[_ M]|[_ M]].
    + exists (t :: pre), post. split; [now rewrite E|].
      rewrite M, H. simpl. ring.
    + exists [], (t :: l). split; [reflexivity|]. rewrite M. simpl. ring.
Qed.

Lemma prefix_le_maxDip (pre post : list Trade.t) :
  - sumQ Trade.rMultiple pre <= maxDip (pre ++ post).
Proof.
  induction pre as [|t pre IH].
  - simpl app. pose proof (maxDip_nonneg post). simpl. lra.
  - cbn [app maxDip sumQ fold_right].
    fold (sumQ Trade.rMultiple pre).
    pose proof (Q.le_max_r 0 (- Trade.rMultiple t + maxDip (pre ++ post))).
    lra.
Qed.

Lemma hasDrop_eq (l : list Trade.t) (d d' : Q) :
  d == d' -> hasDrop l d -> hasDrop l d'.
Proof.
  intros E (b & m & a & El & H). exists b, m, a.
  split; [exact El|]. rewrite <- E. exact H.
Qed.

Lemma worstDrop_hasDrop (l : list Trade.t) : hasDrop l (worstDrop l).
Proof.
  induction l as [|t l IH].
  - exists [], [], []. split; [reflexivity|simpl; ring].
  - cbn [worstDrop].
    destruct (Q.max_spec (maxDip (t :: l)) (worstDrop l)) as [[_ M]|[_ M]].
    + destruct IH as (b & m & a & El & H).
      exists (t :: b), m, a. split; [now rewrite El|]. now rewrite M.
    + destruct (maxDip_is_prefix (t :: l)) as (pre & post & El & H).
      exists [], pre, post. split; [exact El|]. now rewrite M.
Qed.

Lemma hasDrop_le_worstDrop (l : list Trade.t) (d : Q) :
  hasDrop l d -> d <= worstDrop l.
Proof.
  induction l as [|t l IH]; intros (b & m & a & El & H).
  - destruct b; [|discriminate]. destruct m; [|discriminate].
    rewrite H. simpl. lra.
  - cbn [worstDrop]. destruct b as [|y b].
    + simpl in El. rewrite H, El.
      eapply Qle_trans; [apply prefix_le_maxDip|].
      rewrite <- El. apply Q.le_max_l.
    + simpl in El. injection El as _ El.
      assert (Hd : hasDrop l d) by (exists b, m, a; split; assumption).
      eapply Qle_trans; [exact (IH Hd)|apply Q.le_max_r].
Qed.

Lemma maxDrawdown_worstDrop (trades : list Trade.t) :
  TradingStats.maxDrawdown (calculateStats trades)
  == worstDrop (Js.sort byDateAsc trades).
Proof.
  destruct trades as [|t rest]; [reflexivity|].
  rewrite maxDrawdown_nonempty. apply drawdownLoop_worstDrop.
Qed.

(** X5.  maxDrawdown is the largest loss in R over any stretch of
    consecutive trades in date order: some stretch loses exactly that much
    (the negated sum of its r-multiples, 0 for the empty stretch), and none
    loses more.  In particular it is at least the loss over all trades. *)
Theorem maxDrawdown_largest_drop (trades : list Trade.t) :
  let sorted := Js.sort byDateAsc trades in
  let dd := TradingStats.maxDrawdown (calculateStats trades) in
  hasDrop sorted dd
  /\ (forall d, hasDrop sorted d -> d <= dd)
  /\ - sumQ Trade.rMultiple trades <= dd.
Proof.
  cbv zeta. pose proof (maxDrawdown_worstDrop trades) as E.
  split; [|split].
  - apply (hasDrop_eq _ (worstDrop (Js.sort byDateAsc trades)));
      [now symmetry|apply worstDrop_hasDrop].
  - intros d Hd. rewrite E. now apply hasDrop_le_worstDrop.
  - rewrite E. apply hasDrop_le_worstDrop.
    exists [], (Js.sort byDateAsc trades), [].
    split; [now rewrite app_nil_r|].
    now rewrite (sumQ_perm _ _ _ (sort_perm byDateAsc trades)).
Qed.

Lemma sumQ_nonneg (l : list Trade.t) :
  (forall t, In t l -> 0 <= Trade.rMultiple t) -> 0 <= sumQ Trade.rMultiple l.
Proof.
  induction l as [|t l IH]; intro H; simpl; [lra|].
  assert (0 <= Trade.rMultiple t) by (apply H; now left).
  assert (0 <= sumQ Trade.rMultiple l)
    by (apply IH; intros t' Ht'; apply H; now right).
  lra.
Qed.

(** X6.  maxDrawdown is 0 exactly when no trade of the collection has a
    negative r-multiple. *)
Theorem maxDrawdown_zero_iff (trades : list Trade.t) :
  TradingStats.maxDrawdown (calculateStats trades) == 0
  <-> forall t, In t trades -> 0 <= Trade.rMultiple t.
Proof.
  rewrite maxDrawdown_worstDrop. split.
  - intros H t Ht.
    apply (sort_in byDateAsc trades t) in Ht.
    apply in_split in Ht. destruct Ht as (b & a & E).
    assert (Hd : hasDrop (Js.sort byDateAsc trades) (- Trade.rMultiple t)).
    { exists b, [t], a. split; [exact E|simpl; ring]. }
    apply hasDrop_le_worstDrop in Hd. lra.
  - intro H.
    destruct (worstDrop_hasDrop (Js.sort byDateAsc trades))
      as (b & m & a & E & Hd).
    assert (0 <= sumQ Trade.rMultiple m).
    { apply sumQ_nonneg. intros t Ht. apply H.
      apply (sort_in byDateAsc trades t). rewrite E.
      apply in_or_app. right. apply in_or_app. now left. }
    assert (0 <= worstDrop (Js.sort byDateAsc trades)).
    { eapply Qle_trans; [apply maxDip_nonneg|apply maxDip_le_worstDrop]. }
    lra.
Qed.

End DrawdownFacts.

(* ================================================================== *)
(** ** The category breakdowns as partitions of the trades *)

Section PartitionFacts.
Import Db Analytics Props.

Lemma list_sum_map_zero {A : Type} (l : list A) :
  list_sum (map (fun _ => 0%nat) l) = 0%nat.
Proof. induction l; simpl; auto. Qed.

Lemma list_sum_map_add {A : Type} (f g : A -> nat) (l : list A) :
  list_sum (map (fun x => (f x + g x)%nat) l)
  = (list_sum (map f l) + list_sum (map g l))%nat.
Proof. induction l as [|x l IH]; simpl; lia. Qed.

Lemma list_sum_filter_pos {A : Type} (f : A -> nat) (l : list A) :
  list_sum (map f (filter (fun x => (0 <? f x)%nat) l)) = list_sum (map f l).
Proof.
  induction l as [|x l IH]; simpl; [reflexivity|].
  destruct (Nat.ltb_spec 0 (f x)); simpl; lia.
Qed.

(** Among distinct keys exactly one is the key of a given element. *)
Lemma indicator_sum (k0 : string) (ks : list string) :
  NoDup ks ->
  list_sum (map (fun k => if String.eqb k0 k then 1%nat else 0%nat) ks)
  = if in_dec string_dec k0 ks then 1%nat else 0%nat.
Proof.
  induction 1 as [|k ks Hk Hnd IH]; [reflexivity|].
  rewrite map_cons.
  change (list_sum (?a :: ?b)) with (a + list_sum b)%nat. rewrite IH.
  destruct (String.eqb_spec k0 k) as [->|Hne].
  - destruct (in_dec string_dec k ks); [contradiction|].
    destruct (in_dec string_dec k (k :: ks)) as [_|N]; [lia|].
    exfalso. apply N. now left.
  - destruct (in_dec string_dec k0 ks) as [I|N];
      destruct (in_dec string_dec k0 (k :: ks)) as [I'|N']; try lia.
    + exfalso. apply N'. now right.
    + destruct I' as [E|I']; [congruence|contradiction].
Qed.

(** Counting the elements key by key, over distinct keys that cover them,
    counts each element once. *)
Lemma count_partition {A : Type} (key : A -> string) (ks : list string)
  (l : list A) :
  NoDup ks ->
  (forall x, In x l -> In (key x) ks) ->
  list_sum
    (map (fun k => List.length (filter (fun x => String.eqb (key x) k) l)) ks)
  = List.length l.
Proof.
  intros Hnd. induction l as [|x l IH]; intro Hcov.
  - simpl. apply list_sum_map_zero.
  - transitivity
      (list_sum
         (map (fun k =>
                 ((if String.eqb (key x) k then 1 else 0)
                  + List.length (filter (fun y => String.eqb (key y) k) l))%nat)
              ks)).
    + f_equal. apply map_ext. intro k. simpl.
      destruct (String.eqb (key x) k); reflexivity.
    + rewrite list_sum_map_add, indicator_sum by exact Hnd.
      rewrite IH by (intros y Hy; apply Hcov; now right).
      destruct (in_dec string_dec (key x) ks) as [_|N]; [reflexivity|].
      exfalso. apply N, Hcov. now left.
Qed.

Lemma sessions_NoDup : NoDup sessions.
Proof.
  unfold sessions.
  repeat (constructor; [simpl; intuition discriminate|]). constructor.
Qed.

(** The rates of an entry computed from [n] trades of which [w] are wins
    and whose r-multiples sum to [totalR]. *)
Lemma entry_rates (w n : nat) (totalR : Q) :
  (w <= n)%nat ->
  let winRate :=
    if (0 <? n)%nat then (Js.of_nat w / Js.of_nat n) * 100 else 0 in
  let avgR := if (0 <? n)%nat then totalR / Js.of_nat n else 0 in
  0 <= winRate /\ winRate <= 100
  /\ ((1 <= n)%nat -> avgR * Js.of_nat n == totalR).
Proof.
  intro Hw. cbv zeta. destruct (Nat.ltb_spec 0 n) as [Hn|Hn].
  - destruct (percentage_bounds w n Hn Hw) as [B0 B1].
    split; [exact B0|]. split; [exact B1|]. intros _.
    pose proof (of_nat_pos n Hn). field. lra.
  - split; [lra|]. split; [lra|]. intro. lia.
Qed.

(** X7.  Each entry of the session breakdown counts the trades made in its
    session; its win rate lies between 0 and 100, its average R times its
    count is its total R, and its total R is the sum of the r-multiples of
    those trades.  The counts of all entries add up to the number of trades,
    and the breakdown is empty, which is when the session chart shows its
    empty state, exactly when there is no trade. *)
Theorem sessionStats_partition (trades : list Trade.t) :
  let r := calculateSessionStats trades in
  Forall (fun s =>
            let mine := filter (inSession (SessionStats.session s)) trades in
            SessionStats.trades s = List.length mine
            /\ 0 <= SessionStats.winRate s /\ SessionStats.winRate s <= 100
            /\ SessionStats.avgR s * Js.of_nat (SessionStats.trades s)
               == SessionStats.totalR s
            /\ SessionStats.totalR s == sumQ Trade.rMultiple mine) r
  /\ list_sum (map SessionStats.trades r) = List.length trades
  /\ (r = [] <-> trades = []).
Proof.
  cbv zeta. split; [|split].
  - apply Forall_forall. intros s Hs. unfold calculateSessionStats in Hs.
    apply filter_In in Hs. destruct Hs as [Hin Hpos].
    apply in_map_iff in Hin. destruct Hin as (n & <- & _).
    apply Nat.ltb_lt in Hpos. unfold sessionEntry in *.
    cbn [SessionStats.session SessionStats.trades SessionStats.winRate
         SessionStats.avgR SessionStats.totalR] in *.
    fold (inSession n) in *.
    destruct (entry_rates
                (List.length (filter isWin (filter (inSession n) trades)))
                (List.length (filter (inSession n) trades))
                (sumOf Trade.rMultiple (filter (inSession n) trades))
                (filter_length_le _ _)) as (B0 & B1 & B2).
    split; [reflexivity|]. split; [exact B0|]. split; [exact B1|].
    split; [apply B2; lia|apply sumOf_sumQ].
  - unfold calculateSessionStats. rewrite list_sum_filter_pos, map_map.
    apply (count_partition (fun t => session_string (Trade.session t))
             sessions trades sessions_NoDup).
    intros t _. apply session_string_declared.
  - split; intro H.
    + destruct trades as [|t rest]; [reflexivity|].
      now apply sessionStats_nonempty in H.
    + subst trades. reflexivity.
Qed.

Lemma distinct_fold_NoDup (l seen : list string) :
  NoDup seen ->
  NoDup (fold_left
           (fun seen x =>
              if existsb (String.eqb x) seen then seen else seen ++ [x])
           l seen).
Proof.
  revert seen. induction l as [|y l IH]; intros seen Hnd; simpl; [exact Hnd|].
  apply IH. destruct (existsb (String.eqb y) seen) eqn:E; [exact Hnd|].
  apply NoDup_app; [exact Hnd|repeat constructor; simpl; tauto|].
  intros z Hz [<-|[]].
  assert (existsb (String.eqb y) seen = true)
    by (apply existsb_exists; exists y; split; [exact Hz|apply String.eqb_refl]).
  congruence.
Qed.

Lemma distinct_NoDup (l : list string) : NoDup (Js.distinct l).
Proof. apply distinct_fold_NoDup. constructor. Qed.

Lemma filter_all {A : Type} (f : A -> bool) (l : list A) :
  (forall x, In x l -> f x = true) -> filter f l = l.
Proof.
  intro H. apply forallb_filter_id, forallb_forall. exact H.
Qed.

Lemma tag_counted (trades : list Trade.t) (tag : string) :
  In tag (map Trade.setupTag trades) ->
  (1 <= List.length (filter (withTag tag) trades))%nat.
Proof.
  intro H. apply in_map_iff in H. destruct H as (t & <- & Ht).
  induction trades as [|t' trades IH]; [destruct Ht|].
  simpl. unfold withTag at 1.
  destruct (String.eqb_spec (Trade.setupTag t') (Trade.setupTag t));
    [simpl; lia|].
  destruct Ht as [->|Ht]; [congruence|apply IH, Ht].
Qed.

(** No setup entry is dropped: the filter on the count keeps them all. *)
Lemma setupStats_unfiltered (trades : list Trade.t) :
  calculateSetupStats trades
  = map (setupEntry trades) (Js.distinct (map Trade.setupTag trades)).
Proof.
  unfold calculateSetupStats. apply filter_all.
  intros s Hs. apply in_map_iff in Hs. destruct Hs as (tag & <- & Htag).
  apply (proj1 (distinct_in _ _)) in Htag. apply Nat.ltb_lt.
  apply (tag_counted trades tag Htag).
Qed.

Lemma setupStats_tags (trades : list Trade.t) :
  map SetupStats.setup (calculateSetupStats trades)
  = Js.distinct (map Trade.setupTag trades).
Proof.
  rewrite setupStats_unfiltered, map_map. apply map_id.
Qed.

(** X8.  The setup breakdown has one entry per distinct setup tag of the
    trades (the empty tag included), none left out and none twice.  Each
    entry counts the trades carrying its tag, at least one; its win rate
    lies between 0 and 100 and its average R times its count is its total
    R.  The counts add up to the number of trades. *)
Theorem setupStats_partition (trades : list Trade.t) :
  let r := calculateSetupStats trades in
  NoDup (map SetupStats.setup r)
  /\ (forall tag, In tag (map SetupStats.setup r)
                  <-> exists t, In t trades /\ Trade.setupTag t = tag)
  /\ Forall (fun s =>
               let mine := filter (withTag (SetupStats.setup s)) trades in
               SetupStats.trades s = List.length mine
               /\ (1 <= SetupStats.trades s)%nat
               /\ 0 <= SetupStats.winRate s /\ SetupStats.winRate s <= 100
               /\ SetupStats.avgR s * Js.of_nat (SetupStats.trades s)
                  == SetupStats.totalR s
               /\ SetupStats.totalR s == sumQ Trade.rMultiple mine) r
  /\ list_sum (map SetupStats.trades r) = List.length trades.
Proof.
  cbv zeta. rewrite setupStats_tags.
  split; [apply distinct_NoDup|]. split; [|split].
  - intro tag. rewrite distinct_in, in_map_iff.
    split; intros (t & H1 & H2); exists t; split; assumption.
  - rewrite setupStats_unfiltered.
    apply Forall_forall. intros s Hs.
    apply in_map_iff in Hs. destruct Hs as (tag & <- & Htag).
    apply (proj1 (distinct_in _ _)) in Htag.
    pose proof (tag_counted trades tag Htag) as Hn.
    unfold setupEntry.
    cbn [SetupStats.setup SetupStats.trades SetupStats.winRate
         SetupStats.avgR SetupStats.totalR].
    fold (withTag tag).
    destruct (entry_rates
                (List.length (filter isWin (filter (withTag tag) trades)))
                (List.length (filter (withTag tag) trades))
                (sumOf Trade.rMultiple (filter (withTag tag) trades))
                (filter_length_le _ _)) as (B0 & B1 & B2).
    split; [reflexivity|]. split; [exact Hn|]. split; [exact B0|].
    split; [exact B1|]. split; [apply B2, Hn|apply sumOf_sumQ].
  - rewrite setupStats_unfiltered, map_map.
    apply (count_partition Trade.setupTag
             (Js.distinct (map Trade.setupTag trades)) trades
             (distinct_NoDup _)).
    intros t Ht. apply distinct_in, in_map, Ht.
Qed.

End PartitionFacts.

Section FirstSeenFacts.
Import Db Analytics Props.

Lemma filter_filter_and {A : Type} (f g : A -> bool) (l : list A) :
  filter f (filter g l) = filter (fun x => (g x && f x)%bool) l.
Proof.
  induction l as [|x l IH]; simpl; [reflexivity|].
  destruct (g x); simpl; [destruct (f x)|]; now rewrite IH.
Qed.

(** Starting the scan with [seen] already collected gives [seen] followed
    by what a fresh scan collects outside [seen]. *)
Lemma distinct_fold_spec (l seen : list string) :
  fold_left
    (fun seen x => if existsb (String.eqb x) seen then seen else seen ++ [x])
    l seen
  = seen ++ filter (fun y => negb (existsb (String.eqb y) seen))
                   (Js.distinct l).
Proof.
  unfold Js.distinct. revert seen.
  induction l as [|y l IH]; intro seen; [simpl; now rewrite app_nil_r|].
  cbn [fold_left existsb app].
  rewrite (IH [y]). cbn [app filter].
  destruct (existsb (String.eqb y) seen) eqn:E; cbn [negb].
  - rewrite IH. f_equal. rewrite filter_filter_and.
    apply filter_ext_in. intros z _.
    destruct (existsb (String.eqb z) seen) eqn:Ez; cbn [negb];
      [now rewrite andb_false_r|].
    cbn [existsb]. destruct (String.eqb_spec z y) as [->|]; [congruence|].
    reflexivity.
  - rewrite IH, <- app_assoc. cbn [app]. do 2 f_equal.
    rewrite filter_filter_and. apply filter_ext. intro z.
    rewrite existsb_app. cbn [existsb].
    rewrite orb_false_r, negb_orb. apply andb_comm.
Qed.

(** X9.  The setup breakdown lists the tags in order of first appearance:
    the tag of the first trade comes first, followed by the breakdown tags
    of the remaining trades without that tag. *)
Theorem setupStats_first_seen (t : Trade.t) (rest : list Trade.t) :
  map SetupStats.setup (calculateSetupStats (t :: rest))
  = Trade.setupTag t
    :: filter (fun tag => negb (String.eqb tag (Trade.setupTag t)))
              (map SetupStats.setup (calculateSetupStats rest)).
Proof.
  rewrite !setupStats_tags. cbn [map].
  unfold Js.distinct at 1. cbn [fold_left existsb app].
  rewrite distinct_fold_spec. cbn [app]. f_equal.
  apply filter_ext. intro z. cbn [existsb]. now rewrite orb_false_r.
Qed.

End FirstSeenFacts.

(* ================================================================== *)
(** ** The monthly rollup as a grouping by month *)

Section RollupFacts.
Import Db Analytics Props.

Lemma dictGet_None {V : Type} (d : Dict V) (key : string) :
  dictGet d key = None <-> ~ In key (map fst d).
Proof.
  induction d as [|[k v] d IH]; simpl; [tauto|].
  destruct (String.eqb_spec k key) as [->|Hne].
  - split; [discriminate|]. intro H. exfalso. apply H. now left.
  - rewrite IH. tauto.
Qed.

Lemma dictUpdate_keys {V : Type} (d : Dict V) (key : string) (f : V -> V) :
  map fst (dictUpdate d key f) = map fst d.
Proof.
  induction d as [|[k v] d IH]; simpl; [reflexivity|].
  destruct (String.eqb k key); simpl; [reflexivity|now rewrite IH].
Qed.

(** With each key once, an entry after an update is an untouched entry of
    another key or the updated entry of the key. *)
Lemma dictUpdate_in {V : Type} (d : Dict V) (key : string) (f : V -> V)
  (k : string) (v' : V) :
  NoDup (map fst d) ->
  In (k, v') (dictUpdate d key f) ->
  (k <> key /\ In (k, v') d)
  \/ (k = key /\ exists v, In (key, v) d /\ v' = f v).
Proof.
  induction d as [|[k0 v0] d IH]; simpl; [tauto|].
  intros Hnd Hin. inversion Hnd as [|? ? Hk0 Hnd']; subst.
  destruct (String.eqb_spec k0 key) as [->|Hne].
  - destruct Hin as [E|Hin].
    + injection E as <- <-. right. split; [reflexivity|].
      exists v0. split; [now left|reflexivity].
    + left. split; [|now right].
      intros ->. apply Hk0. apply in_map_iff. now exists (key, v').
  - destruct Hin as [E|Hin].
    + injection E as <- <-. left. split; [exact Hne|now left].
    + destruct (IH Hnd' Hin) as [[H1 H2]|[H1 (v & H2 & H3)]].
      * left. split; [exact H1|now right].
      * right. split; [exact H1|]. exists v. split; [now right|exact H3].
Qed.

Lemma sumQ_app {A : Type} (f : A -> Q) (l1 l2 : list A) :
  sumQ f (l1 ++ l2) == sumQ f l1 + sumQ f l2.
Proof.
  induction l1 as [|x l1 IH]; simpl; [ring|]. rewrite IH. ring.
Qed.

(** A bucket of another month is not affected by a trade. *)
Lemma bucketOf_other (seen : list Trade.t) (t : Trade.t) (k : string)
  (b : MonthBucket.t) :
  k <> monthKeyOf (Trade.date t) ->
  bucketOf seen (k, b) -> bucketOf (seen ++ [t]) (k, b).
Proof.
  unfold bucketOf. cbn [fst snd]. intros Hk H.
  assert (E : filter (inMonth k) (seen ++ [t]) = filter (inMonth k) seen).
  { rewrite filter_app. cbn [filter]. unfold inMonth at 2.
    destruct (String.eqb_spec (monthKeyOf (Trade.date t)) k); [congruence|].
    apply app_nil_r. }
  rewrite E. exact H.
Qed.

(** The bucket of the trade's month after the three updates of the loop. *)
Lemma bucketOf_mine (seen : list Trade.t) (t : Trade.t) (b : MonthBucket.t) :
  let key := monthKeyOf (Trade.date t) in
  MonthBucket.trades b = List.length (filter (inMonth key) seen) ->
  MonthBucket.wins b
  = List.length (filter isWin (filter (inMonth key) seen)) ->
  MonthBucket.profit b == sumQ Trade.rMultiple (filter (inMonth key) seen) ->
  bucketOf (seen ++ [t])
    (key,
     MonthBucket.mk
       (MonthBucket.profit b + Trade.rMultiple t)
       (S (MonthBucket.trades b))
       (if isWin t then S (MonthBucket.wins b) else MonthBucket.wins b)).
Proof.
  cbv zeta. intros H1 H2 H3. unfold bucketOf. cbn [fst snd].
  cbn [MonthBucket.trades MonthBucket.wins MonthBucket.profit].
  assert (E : filter (inMonth (monthKeyOf (Trade.date t))) (seen ++ [t])
              = filter (inMonth (monthKeyOf (Trade.date t))) seen ++ [t]).
  { rewrite filter_app. cbn [filter]. unfold inMonth at 2.
    now rewrite String.eqb_refl. }
  rewrite E, filter_app, !length_app, sumQ_app, H1, H2, H3.
  cbn [filter]. split; [simpl; lia|]. split; [|split; [simpl; ring|lia]].
  destruct (isWin t); simpl; lia.
Qed.

Lemma filter_none {A : Type} (f : A -> bool) (l : list A) :
  (forall x, In x l -> f x = false) -> filter f l = [].
Proof.
  induction l as [|x l IH]; intro H; simpl; [reflexivity|].
  rewrite (H x) by now left. apply IH. intros y Hy. apply H. now right.
Qed.

Lemma monthlyStep_inv (seen : list Trade.t) (d : Dict MonthBucket.t)
  (t : Trade.t) :
  monthlyInv seen d -> monthlyInv (seen ++ [t]) (monthlyStep d t).
Proof.
  intros (Hnd & Hb & Hcov). unfold monthlyStep.
  set (key := monthKeyOf (Trade.date t)).
  rewrite Forall_forall in Hb.
  destruct (dictGet d key) eqn:E.
  - assert (Hkey : In key (map fst d)).
    { destruct (in_dec string_dec key (map fst d)) as [H|H]; [exact H|].
      apply dictGet_None in H. congruence. }
    split; [now rewrite dictUpdate_keys|]. split.
    + apply Forall_forall. intros [k b] Hin.
      destruct (dictUpdate_in _ _ _ _ _ Hnd Hin)
        as [[Hk Hin']|[-> (b0 & Hin' & ->)]].
      * apply bucketOf_other; [exact Hk|exact (Hb _ Hin')].
      * destruct (Hb _ Hin') as (H1 & H2 & H3 & _).
        exact (bucketOf_mine seen t b0 H1 H2 H3).
    + rewrite dictUpdate_keys. intros t' Ht'.
      apply in_app_or in Ht'. destruct Ht' as [Ht'|[<-|[]]];
        [now apply Hcov|exact Hkey].
  - pose proof (proj1 (dictGet_None d key) E) as Hfresh.
    rewrite dictUpdate_missing by exact E.
    assert (Hnone : filter (inMonth key) seen = []).
    { apply filter_none. intros t' Ht'. unfold inMonth.
      destruct (String.eqb_spec (monthKeyOf (Trade.date t')) key) as [Ek|Ek];
        [|reflexivity].
      exfalso. apply Hfresh. rewrite <- Ek. now apply Hcov. }
    split; [|split].
    + rewrite map_app. apply NoDup_app; [exact Hnd| |].
      * repeat constructor. simpl. tauto.
      * intros k Hk [<-|[]]. exact (Hfresh Hk).
    + apply Forall_app. split.
      * apply Forall_forall. intros [k b] Hin.
        apply bucketOf_other; [|exact (Hb _ Hin)].
        intros ->. apply Hfresh, in_map_iff. now exists (key, b).
      * constructor; [|constructor].
        apply (bucketOf_mine seen t (MonthBucket.mk 0 0 0));
          fold key; rewrite Hnone; simpl; reflexivity.
    + rewrite map_app. intros t' Ht'. apply in_or_app.
      apply in_app_or in Ht'. destruct Ht' as [Ht'|[<-|[]]];
        [left; now apply Hcov|right; now left].
Qed.

Lemma monthlyLoop_inv (l seen : list Trade.t) (d : Dict MonthBucket.t) :
  monthlyInv seen d -> monthlyInv (seen ++ l) (fold_left monthlyStep l d).
Proof.
  revert seen d. induction l as [|t l IH]; intros seen d H.
  - simpl. now rewrite app_nil_r.
  - cbn [fold_left].
    replace (seen ++ t :: l) with ((seen ++ [t]) ++ l)
      by (now rewrite <- app_assoc).
    apply IH, monthlyStep_inv, H.
Qed.

Lemma monthlyData_inv (trades : list Trade.t) :
  monthlyInv trades (fold_left monthlyStep trades []).
Proof.
  apply (monthlyLoop_inv trades [] []).
  split; [constructor|]. split; [constructor|]. intros t [].
Qed.

Lemma monthlyRecord_month (l : list (string * MonthBucket.t)) :
  map MonthlyPerformance.month (map monthlyRecord l) = map fst l.
Proof.
  rewrite map_map. apply map_ext. now intros [k b].
Qed.

(** X10.  The monthly rollup has one record per month in which a trade
    falls, and no other.  A record's count is the number of trades of its
    month, its profit the sum of their r-multiples, and its win rate the
    share of wins among them times 100.  The counts add up to the number of
    trades. *)
Theorem monthly_grouping (trades : list Trade.t) :
  let r := calculateMonthlyPerformance trades in
  NoDup (map MonthlyPerformance.month r)
  /\ (forall key, In key (map MonthlyPerformance.month r)
                  <-> exists t, In t trades
                        /\ monthKeyOf (Trade.date t) = key)
  /\ Forall (fun m =>
               let mine := filter (inMonth (MonthlyPerformance.month m))
                                  trades in
               MonthlyPerformance.trades m = List.length mine
               /\ MonthlyPerformance.profit m == sumQ Trade.rMultiple mine
               /\ MonthlyPerformance.winRate m
                  == Js.of_nat (List.length (filter isWin mine))
                     / Js.of_nat (List.length mine) * 100) r
  /\ list_sum (map MonthlyPerformance.trades r) = List.length trades.
Proof.
  cbv zeta. unfold calculateMonthlyPerformance.
  destruct (monthlyData_inv trades) as (Hnd & Hb & Hcov).
  set (d := fold_left monthlyStep trades []) in *.
  set (cmp := fun a b : string * MonthBucket.t =>
                Js.localeCompare (fst a) (fst b)).
  pose proof (sort_perm cmp d) as P.
  rewrite Forall_forall in Hb.
  assert (Hkeys : Permutation (map fst (Js.sort cmp d)) (map fst d))
    by now apply Permutation_map.
  assert (Hrec : forall m, In m (map monthlyRecord (Js.sort cmp d)) ->
            MonthlyPerformance.trades m
            = List.length (filter (inMonth (MonthlyPerformance.month m)) trades)
            /\ MonthlyPerformance.profit m
               == sumQ Trade.rMultiple
                    (filter (inMonth (MonthlyPerformance.month m)) trades)
            /\ MonthlyPerformance.winRate m
               == Js.of_nat
                    (List.length
                       (filter isWin
                          (filter (inMonth (MonthlyPerformance.month m))
                                  trades)))
                  / Js.of_nat
                      (List.length
                         (filter (inMonth (MonthlyPerformance.month m))
                                 trades)) * 100).
  { intros m Hm. apply in_map_iff in Hm. destruct Hm as ([k b] & <- & Hin).
    apply (sort_in cmp d) in Hin.
    destruct (Hb _ Hin) as (H1 & H2 & H3 & _). cbn [fst snd] in *.
    cbn [monthlyRecord MonthlyPerformance.trades MonthlyPerformance.profit
         MonthlyPerformance.winRate MonthlyPerformance.month].
    split; [exact H1|]. split; [exact H3|]. now rewrite H1, H2. }
  rewrite monthlyRecord_month.
  split; [|split; [|split]].
  - apply (Permutation_NoDup (Permutation_sym Hkeys) Hnd).
  - intro key. split.
    + intro Hk. apply (Permutation_in _ Hkeys) in Hk.
      apply in_map_iff in Hk. destruct Hk as ([k b] & <- & Hin).
      destruct (Hb _ Hin) as (H1 & _ & _ & H4). cbn [fst snd] in *.
      destruct (filter (inMonth k) trades) as [|t mine] eqn:Ef;
        [simpl in H1; lia|].
      assert (Ht : In t (filter (inMonth k) trades))
        by (rewrite Ef; now left).
      apply filter_In in Ht. destruct Ht as [Ht Hm].
      exists t. split; [exact Ht|]. now apply String.eqb_eq.
    + intros (t & Ht & <-).
      apply (Permutation_in _ (Permutation_sym Hkeys)). now apply Hcov.
  - apply Forall_forall. exact Hrec.
  - transitivity
      (list_sum
         (map (fun k => List.length
                          (filter (fun t => String.eqb
                                              (monthKeyOf (Trade.date t)) k)
                                  trades))
              (map fst (Js.sort cmp d)))).
    + f_equal. rewrite <- (monthlyRecord_month (Js.sort cmp d)).
      rewrite (map_map MonthlyPerformance.month).
      apply map_ext_in. intros m Hm. exact (proj1 (Hrec m Hm)).
    + apply count_partition.
      * apply (Permutation_NoDup (Permutation_sym Hkeys) Hnd).
      * intros t Ht.
        apply (Permutation_in _ (Permutation_sym Hkeys)). now apply Hcov.
Qed.

End RollupFacts.

(* ================================================================== *)
(** ** The order of the monthly records *)

Section SortOrderFacts.
Context {A : Type} (cmp : A -> A -> Z) (le : A -> A -> Prop).
Hypothesis cmp_le : forall a b, (cmp a b <= 0)%Z <-> le a b.
Hypothesis le_total : forall a b, le a b \/ le b a.
Hypothesis le_trans : forall a b c, le a b -> le b c -> le a c.

Lemma insert_sorted_le (x : A) (l : list A) :
  StronglySorted le l -> StronglySorted le (Js.insert cmp x l).
Proof.
  induction 1 as [|y l Hs IH Hy]; simpl.
  - repeat constructor.
  - destruct (Z.leb_spec (cmp x y) 0) as [Hc|Hc].
    + apply cmp_le in Hc.
      constructor; [now constructor|].
      constructor; [exact Hc|].
      rewrite Forall_forall in *. intros z Hz.
      exact (le_trans _ _ _ Hc (Hy z Hz)).
    + assert (Hyx : le y x).
      { destruct (le_total x y) as [H|H]; [|exact H].
        apply cmp_le in H. lia. }
      constructor; [exact IH|].
      rewrite Forall_forall in *. intros z Hz.
      apply (Permutation_in _ (insert_perm cmp x l)) in Hz.
      destruct Hz as [<-|Hz]; [exact Hyx|now apply Hy].
Qed.

Lemma sort_sorted_le (l : list A) : StronglySorted le (Js.sort cmp l).
Proof.
  induction l as [|x l IH]; simpl; [constructor|now apply insert_sorted_le].
Qed.

End SortOrderFacts.

Section MonthOrderFacts.
Import Db Analytics Props.

Lemma string_le_total (a b : string) : string_le a b \/ string_le b a.
Proof.
  unfold string_le. rewrite (String.compare_antisym a b).
  destruct (String.compare b a); simpl; [left|right|left]; discriminate.
Qed.

Lemma string_le_trans (a b c : string) :
  string_le a b -> string_le b c -> string_le a c.
Proof.
  unfold string_le. revert b c.
  induction a as [|x a IH]; intros [|y b] [|z c]; simpl;
    try congruence; try discriminate.
  unfold Ascii.compare.
  destruct (N.compare_spec (N_of_ascii x) (N_of_ascii y)) as [Exy|Exy|Exy];
    destruct (N.compare_spec (N_of_ascii y) (N_of_ascii z)) as [Eyz|Eyz|Eyz];
    destruct (N.compare_spec (N_of_ascii x) (N_of_ascii z)) as [Exz|Exz|Exz];
    try congruence; try discriminate; try lia.
  apply IH.
Qed.

Lemma localeCompare_le (a b : string) :
  (Js.localeCompare a b <= 0)%Z <-> string_le a b.
Proof.
  unfold Js.localeCompare, string_le.
  destruct (String.compare a b); split; intro H;
    try lia; try discriminate; congruence.
Qed.

(** X11.  The monthly records are in ascending order of their month key:
    each key is at most every later key in the character order of the
    keys, and, the keys being distinct, differs from it. *)
Theorem monthly_sorted (trades : list Trade.t) :
  StronglySorted
    (fun a b =>
       string_le (MonthlyPerformance.month a) (MonthlyPerformance.month b)
       /\ MonthlyPerformance.month a <> MonthlyPerformance.month b)
    (calculateMonthlyPerformance trades).
Proof.
  unfold calculateMonthlyPerformance.
  destruct (monthlyData_inv trades) as (Hnd & _ & _).
  set (d := fold_left monthlyStep trades []) in *.
  set (cmp := fun a b : string * MonthBucket.t =>
                Js.localeCompare (fst a) (fst b)).
  assert (Hs : StronglySorted (fun a b => string_le (fst a) (fst b))
                 (Js.sort cmp d)).
  { apply sort_sorted_le.
    - intros a b. apply localeCompare_le.
    - intros a b. apply string_le_total.
    - intros a b c. apply string_le_trans. }
  assert (Hn : NoDup (map fst (Js.sort cmp d))).
  { apply (Permutation_NoDup
             (Permutation_sym (Permutation_map fst (sort_perm cmp d))) Hnd). }
  induction Hs as [|[k b] l Hs IH Hall]; simpl; [constructor|].
  simpl in Hn. inversion Hn as [|? ? Hk Hn']; subst.
  constructor; [exact (IH Hn')|].
  rewrite Forall_forall in *. intros m Hm.
  apply in_map_iff in Hm. destruct Hm as ([k' b'] & <- & Hin).
  cbn [monthlyRecord MonthlyPerformance.month].
  split; [exact (Hall _ Hin)|].
  intros ->. apply Hk, in_map_iff. now exists (k', b').
Qed.

End MonthOrderFacts.

(* ================================================================== *)
(** ** What the insight rules report *)

Section RuleFacts.
Import Db Analytics Props.

(** Case analysis of a rule that is a nest of conditionals. *)
Ltac rule_cases :=
  repeat match goal with
         | |- context [match ?x with _ => _ end] => destruct x
         end.

Ltac rule_cases_in H :=
  repeat match type of H with
         | context [match ?x with _ => _ end] => destruct x eqn:?
         end.

Lemma bestSessionRule_length trades stats :
  (List.length (bestSessionRule trades stats) <= 1)%nat.
Proof. unfold bestSessionRule. rule_cases; simpl; lia. Qed.

Lemma worstSessionRule_length trades stats :
  (List.length (worstSessionRule trades stats) <= 1)%nat.
Proof. unfold worstSessionRule. rule_cases; simpl; lia. Qed.

Lemma bestSetupRule_length trades stats :
  (List.length (bestSetupRule trades stats) <= 1)%nat.
Proof. unfold bestSetupRule. rule_cases; simpl; lia. Qed.

Lemma riskRule_length trades : (List.length (riskRule trades) <= 1)%nat.
Proof. unfold riskRule. rule_cases; simpl; lia. Qed.

Lemma consecutiveLossesRule_length trades stats :
  (List.length (consecutiveLossesRule trades stats) <= 1)%nat.
Proof. unfold consecutiveLossesRule. rule_cases; simpl; lia. Qed.

Lemma winRateRule_length trades stats :
  (List.length (winRateRule trades stats) <= 1)%nat.
Proof. unfold winRateRule. rule_cases; simpl; lia. Qed.

Lemma profitFactorRule_length stats :
  (List.length (profitFactorRule stats) <= 1)%nat.
Proof. unfold profitFactorRule. rule_cases; simpl; lia. Qed.

Lemma emotionRule_length trades : (List.length (emotionRule trades) <= 1)%nat.
Proof. unfold emotionRule. rule_cases; simpl; lia. Qed.

Lemma winRateMessages (t : Trade.t) (rest : list Trade.t)
  (stats : TradingStats.t) :
  filter isWinRateMessage (generateInsights (t :: rest) stats)
  = winRateRule (t :: rest) stats.
Proof.
  unfold generateInsights. rewrite !filter_app.
  replace (filter isWinRateMessage (bestSessionRule (t :: rest) stats))
    with (@nil Insight) by (unfold bestSessionRule; rule_cases; reflexivity).
  replace (filter isWinRateMessage (worstSessionRule (t :: rest) stats))
    with (@nil Insight) by (unfold worstSessionRule; rule_cases; reflexivity).
  replace (filter isWinRateMessage (bestSetupRule (t :: rest) stats))
    with (@nil Insight) by (unfold bestSetupRule; rule_cases; reflexivity).
  replace (filter isWinRateMessage (riskRule (t :: rest)))
    with (@nil Insight) by (unfold riskRule; rule_cases; reflexivity).
  replace (filter isWinRateMessage (consecutiveLossesRule (t :: rest) stats))
    with (@nil Insight)
    by (unfold consecutiveLossesRule; rule_cases; reflexivity).
  replace (filter isWinRateMessage (profitFactorRule stats))
    with (@nil Insight) by (unfold profitFactorRule; rule_cases; reflexivity).
  replace (filter isWinRateMessage (emotionRule (t :: rest)))
    with (@nil Insight) by (unfold emotionRule; rule_cases; reflexivity).
  rewrite app_nil_r. simpl.
  unfold winRateRule. rule_cases; reflexivity.
Qed.

(** X12.  For any trades and any statistics the insight list has at most 8
    entries, and at most one of them is a win-rate message: the
    commendation and the concern never appear together. *)
Theorem insights_bounded (trades : list Trade.t) (stats : TradingStats.t) :
  (List.length (generateInsights trades stats) <= 8)%nat
  /\ (List.length (filter isWinRateMessage (generateInsights trades stats))
      <= 1)%nat
  /\ forall a b, ~ (In (GreatWinRate a) (generateInsights trades stats)
                    /\ In (LowWinRate b) (generateInsights trades stats)).
Proof.
  destruct trades as [|t rest].
  - simpl. split; [lia|]. split; [lia|].
    intros a b [[H|[]] _]. discriminate.
  - assert (Hw : (List.length
                    (filter isWinRateMessage
                       (generateInsights (t :: rest) stats)) <= 1)%nat).
    { rewrite winRateMessages. apply winRateRule_length. }
    split; [|split; [exact Hw|]].
    + unfold generateInsights. rewrite !length_app.
      pose proof (bestSessionRule_length (t :: rest) stats).
      pose proof (worstSessionRule_length (t :: rest) stats).
      pose proof (bestSetupRule_length (t :: rest) stats).
      pose proof (riskRule_length (t :: rest)).
      pose proof (consecutiveLossesRule_length (t :: rest) stats).
      pose proof (winRateRule_length (t :: rest) stats).
      pose proof (profitFactorRule_length stats).
      pose proof (emotionRule_length (t :: rest)).
      lia.
    + intros a b [Ha Hb].
      assert (Ha' : In (GreatWinRate a)
                       (filter isWinRateMessage
                          (generateInsights (t :: rest) stats)))
        by (apply filter_In; split; [exact Ha|reflexivity]).
      assert (Hb' : In (LowWinRate b)
                       (filter isWinRateMessage
                          (generateInsights (t :: rest) stats)))
        by (apply filter_In; split; [exact Hb|reflexivity]).
      destruct (filter isWinRateMessage (generateInsights (t :: rest) stats))
        as [|i [|j l]]; simpl in *; try lia; try tauto.
      destruct Ha' as [Ea|[]]. destruct Hb' as [Eb|[]]. congruence.
Qed.

End RuleFacts.

Section CalloutFacts.
Import Db Analytics Props.



(** The rule an insight of a non-empty collection comes from. *)
Lemma insight_origin (t : Trade.t) (rest : list Trade.t)
  (stats : TradingStats.t) (i : Insight) :
  In i (generateInsights (t :: rest) stats) ->
  In i (bestSessionRule (t :: rest) stats)
  \/ In i (worstSessionRule (t :: rest) stats)
  \/ In i (bestSetupRule (t :: rest) stats)
  \/ In i (riskRule (t :: rest))
  \/ In i (consecutiveLossesRule (t :: rest) stats)
  \/ In i (winRateRule (t :: rest) stats)
  \/ In i (profitFactorRule stats)
  \/ In i (emotionRule (t :: rest)).
Proof. unfold generateInsights. rewrite !in_app_iff. tauto. Qed.

(** Settles membership of a message in a rule that cannot produce it. *)
Ltac not_from H :=
  unfold bestSessionRule, worstSessionRule, bestSetupRule, riskRule,
    consecutiveLossesRule, winRateRule, profitFactorRule, emotionRule in H;
  repeat match type of H with
         | context [match ?x with _ => _ end] => destruct x
         end;
  simpl in H;
  repeat match type of H with
         | _ \/ _ => destruct H as [H|H]
         end;
  try discriminate H; try contradiction.





End CalloutFacts.

Section ThresholdFacts.
Import Db Analytics Props.

Ltac not_from H :=
  unfold bestSessionRule, worstSessionRule, bestSetupRule, riskRule,
    consecutiveLossesRule, winRateRule, profitFactorRule, emotionRule in H;
  repeat match type of H with
         | context [match ?x with _ => _ end] => destruct x
         end;
  simpl in H;
  repeat match type of H with
         | _ \/ _ => destruct H as [H|H]
         end;
  try discriminate H; try contradiction.

Lemma geb_spec (a b : Q) : Js.geb a b = true <-> b <= a.
Proof. unfold Js.geb. apply Qle_bool_iff. Qed.


Lemma winRate_origin t rest stats i :
  isWinRateMessage i = true ->
  In i (generateInsights (t :: rest) stats) ->
  In i (winRateRule (t :: rest) stats).
Proof.
  intros Hi H. rewrite <- winRateMessages. apply filter_In. now split.
Qed.

Lemma profitFactor_origin t rest stats pf :
  In (ExcellentProfitFactor pf) (generateInsights (t :: rest) stats) ->
  In (ExcellentProfitFactor pf) (profitFactorRule stats).
Proof.
  intro H. apply insight_origin in H.
  destruct H as [H|[H|[H|[H|[H|[H|[H|H]]]]]]]; [| | | | | |exact H|];
    not_from H.
Qed.

Lemma rule_in_insights t rest stats i :
  In i (riskRule (t :: rest)) \/ In i (winRateRule (t :: rest) stats)
  \/ In i (profitFactorRule stats) ->
  In i (generateInsights (t :: rest) stats).
Proof. unfold generateInsights. rewrite !in_app_iff. tauto. Qed.


End ThresholdFacts.

Section EmotionFacts.
Import Db Analytics Props.

Ltac not_from H :=
  unfold bestSessionRule, worstSessionRule, bestSetupRule, riskRule,
    consecutiveLossesRule, winRateRule, profitFactorRule, emotionRule in H;
  repeat match type of H with
         | context [match ?x with _ => _ end] => destruct x
         end;
  simpl in H;
  repeat match type of H with
         | _ \/ _ => destruct H as [H|H]
         end;
  try discriminate H; try contradiction.









End EmotionFacts.

(* ================================================================== *)
(** ** The insights of the computed statistics *)

Section ComputedFacts.
Import Db Analytics Props.

(** A share of [w] in [n], as a percentage, against a whole number [k]. *)
Lemma percentage_ge (w n k : nat) :
  (1 <= n)%nat ->
  (Js.of_nat k <= Js.of_nat w / Js.of_nat n * 100
   <-> (k * n <= 100 * w)%nat).
Proof.
  intro Hn. pose proof (of_nat_pos n Hn) as Pn.
  assert (E : Js.of_nat w / Js.of_nat n * 100
              == (100 * Js.of_nat w) / Js.of_nat n) by (field; lra).
  assert (Z : Js.of_nat k * Js.of_nat n <= 100 * Js.of_nat w
              <-> (k * n <= 100 * w)%nat).
  { unfold Js.of_nat. change 100 with (inject_Z 100).
    rewrite <- !inject_Z_mult, <- Zle_Qle. lia. }
  rewrite <- Z, E. split; intro H.
  - apply (Qmult_le_compat_r _ _ (Js.of_nat n)) in H; [|lra].
    assert (F : 100 * Js.of_nat w / Js.of_nat n * Js.of_nat n
                == 100 * Js.of_nat w) by (field; lra).
    rewrite F in H. exact H.
  - apply Qle_shift_div_l; [exact Pn|exact H].
Qed.

Lemma winRate_computed (t : Trade.t) (rest : list Trade.t) :
  TradingStats.winRate (calculateStats (t :: rest))
  = Js.of_nat (List.length (filter isWin (t :: rest)))
    / Js.of_nat (List.length (t :: rest)) * 100.
Proof. reflexivity. Qed.

Lemma profitFactor_computed (t : Trade.t) (rest : list Trade.t) :
  TradingStats.profitFactor (calculateStats (t :: rest))
  = profitFactorOf (TradingStats.totalProfit (calculateStats (t :: rest)))
                   (TradingStats.totalLoss (calculateStats (t :: rest))).
Proof. reflexivity. Qed.

(** X16.  With the statistics computed from the same non-empty collection:
    the win-rate commendation appears exactly when at least three fifths of
    the trades are wins, the win-rate concern exactly when fewer than two
    fifths are wins and there are at least 10 trades, and the profit-factor
    commendation reports an infinite profit factor exactly when totalLoss
    is 0 and totalProfit is positive. *)
Theorem insights_of_computed_stats (t : Trade.t) (rest : list Trade.t) :
  let trades := t :: rest in
  let stats := calculateStats trades in
  let ins := generateInsights trades stats in
  let wins := List.length (filter isWin trades) in
  let n := List.length trades in
  ((exists a, In (GreatWinRate a) ins) <-> (3 * n <= 5 * wins)%nat)
  /\ ((exists a, In (LowWinRate a) ins)
      <-> (5 * wins < 2 * n)%nat /\ (10 <= n)%nat)
  /\ (In (ExcellentProfitFactor Js.Infinity) ins
      <-> TradingStats.totalLoss stats == 0
          /\ 0 < TradingStats.totalProfit stats).
Proof.
  cbv zeta.
  assert (Hn : (1 <= List.length (t :: rest))%nat) by (simpl; lia).
  pose proof (percentage_ge (List.length (filter isWin (t :: rest)))
                (List.length (t :: rest)) 60 Hn) as H60.
  pose proof (percentage_ge (List.length (filter isWin (t :: rest)))
                (List.length (t :: rest)) 40 Hn) as H40.
  change (Js.of_nat 60) with 60 in H60. change (Js.of_nat 40) with 40 in H40.
  rewrite <- (winRate_computed t rest) in H60, H40.
  split; [|split].
  - split.
    + intros (a & H). apply winRate_origin in H; [|reflexivity].
      unfold winRateRule in H.
      destruct (Js.geb _ 60) eqn:E.
      * apply geb_spec, H60 in E. lia.
      * destruct (_ && _)%bool; [|destruct H].
        destruct H as [H|[]]. discriminate.
    + intro H. eexists. apply rule_in_insights. right. left.
      unfold winRateRule.
      assert (E : Js.geb (TradingStats.winRate (calculateStats (t :: rest))) 60
                  = true) by (apply geb_spec, H60; lia).
      rewrite E. now left.
  - split.
    + intros (a & H). apply winRate_origin in H; [|reflexivity].
      unfold winRateRule in H.
      destruct (Js.geb _ 60) eqn:E; [destruct H as [H|[]]; discriminate|].
      destruct (Js.ltb _ 40) eqn:E1; cbn [andb] in H; [|destruct H].
      destruct (Nat.leb_spec 10 (List.length (t :: rest))) as [E2|E2];
        [|destruct H].
      apply ltb_spec in E1. split; [|exact E2].
      destruct (Nat.le_gt_cases (40 * List.length (t :: rest))
                  (100 * List.length (filter isWin (t :: rest)))) as [C|C];
        [apply H40 in C; lra|lia].
    + intros [H1 H2]. eexists. apply rule_in_insights. right. left.
      unfold winRateRule.
      assert (E : Js.geb (TradingStats.winRate (calculateStats (t :: rest))) 60
                  = false).
      { destruct (Js.geb _ 60) eqn:E; [|reflexivity].
        apply geb_spec, H60 in E. lia. }
      assert (E1 : Js.ltb (TradingStats.winRate (calculateStats (t :: rest))) 40
                   = true).
      { apply ltb_spec. apply Qnot_le_lt. intro C. apply H40 in C. lia. }
      rewrite E, E1. apply Nat.leb_le in H2.  rewrite H2.
      cbn [andb]. now left.
  - assert (Hl : 0 <= TradingStats.totalLoss (calculateStats (t :: rest)))
      by apply Qabs_nonneg.
    destruct (profitFactorOf_cases
                (TradingStats.totalProfit (calculateStats (t :: rest)))
                (TradingStats.totalLoss (calculateStats (t :: rest))) Hl)
      as (HI & _ & _).
    rewrite <- HI, <- (profitFactor_computed t rest).  split.
    + intro H. apply profitFactor_origin in H. unfold profitFactorRule in H.
      destruct (Js.number_geb _ 2); [|destruct H].
      destruct H as [H|[]]. now injection H.
    + intro H. apply rule_in_insights. right. right.
      unfold profitFactorRule. rewrite H. now left.
Qed.

End ComputedFacts.

(* ================================================================== *)
(** ** The lot size calculator *)

Section CalculatorFacts.
Import Calculator.
Variable toUpperCase : string -> string.

Lemma pipValue_pos (pair : string) : 0 < getPipValuePerLot toUpperCase pair.
Proof.
  unfold getPipValuePerLot.
  repeat match goal with
         | |- context [if ?c then _ else _] => destruct c
         end; reflexivity.
Qed.

Lemma divisor_zero (input : CalculatorInput.t) :
  CalculatorInput.stopLossPips input
  * getPipValuePerLot toUpperCase (CalculatorInput.pair input) == 0
  <-> CalculatorInput.stopLossPips input == 0.
Proof.
  pose proof (pipValue_pos (CalculatorInput.pair input)) as Hp.
  split; intro H.
  - apply Qmult_integral in H. destruct H as [H|H]; [exact H|lra].
  - rewrite H. ring.
Qed.

(** X17.  calculateLotSize yields finite lot sizes exactly when the stop
    loss is not 0 pips: the pip value per lot is positive for every pair,
    so the divisor is 0 only then. *)
Theorem calculateLotSize_defined (input : CalculatorInput.t) :
  0 < getPipValuePerLot toUpperCase (CalculatorInput.pair input)
  /\ (calculateLotSize toUpperCase input = None
      <-> CalculatorInput.stopLossPips input == 0).
Proof.
  split; [apply pipValue_pos|].
  unfold calculateLotSize. rewrite <- divisor_zero.
  destruct (Qeq_bool _ 0) eqn:E.
  - apply Qeq_bool_iff in E. tauto.
  - split; [discriminate|]. intro H. apply Qeq_bool_iff in H. congruence.
Qed.



Lemma floor_mono (x y : Q) : x <= y -> floor x <= floor y.
Proof. intro H. unfold floor. rewrite <- Zle_Qle. now apply Qfloor_resp_le. Qed.



End CalculatorFacts.


Section LotLimitFacts.
Import Calculator.
Variable toUpperCase : string -> string.

(** X19.  With a positive stop loss and an account balance that is not
    negative, the lot size is not negative when the risk percent is not,
    and it is at most the maximum lot size, which is the lot size for a
    risk of 5 percent, whenever the risk percent is at most 5. *)
Theorem calculateLotSize_within_maximum (input : CalculatorInput.t)
  (r : CalculatorResult.t) :
  0 < CalculatorInput.stopLossPips input ->
  0 <= CalculatorInput.accountBalance input ->
  calculateLotSize toUpperCase input = Some r ->
  (0 <= CalculatorInput.riskPercent input -> 0 <= CalculatorResult.lotSize r)
  /\ (CalculatorInput.riskPercent input <= 5 ->
      CalculatorResult.lotSize r <= CalculatorResult.maxLotSize r)
  /\ forall input' r',
       CalculatorInput.accountBalance input'
       = CalculatorInput.accountBalance input ->
       CalculatorInput.stopLossPips input'
       = CalculatorInput.stopLossPips input ->
       CalculatorInput.pair input' = CalculatorInput.pair input ->
       calculateLotSize toUpperCase input' = Some r' ->
       CalculatorResult.maxLotSize r' = CalculatorResult.maxLotSize r.
Proof.
  intros Hs Hb E. unfold calculateLotSize in *.
  pose proof (pipValue_pos toUpperCase (CalculatorInput.pair input)) as Hp.
  set (perLot := getPipValuePerLot toUpperCase (CalculatorInput.pair input))
    in *.
  set (stop := CalculatorInput.stopLossPips input) in *.
  set (bal := CalculatorInput.accountBalance input) in *.
  set (pct := CalculatorInput.riskPercent input) in *.
  assert (Hd : 0 < stop * perLot).
  { rewrite <- (Qmult_0_l perLot). apply Qmult_lt_compat_r; assumption. }
  destruct (Qeq_bool (stop * perLot) 0) eqn:Ez; [discriminate|].
  injection E as <-.
  cbn [CalculatorResult.lotSize CalculatorResult.maxLotSize].
  assert (Hinv : 0 < / (stop * perLot)) by now apply Qinv_lt_0_compat.
  assert (Hmono : forall x y, x <= y ->
            floor (x / (stop * perLot) * 100) / 100
            <= floor (y / (stop * perLot) * 100) / 100).
  { intros x y Hxy.
    assert (M : x / (stop * perLot) * 100 <= y / (stop * perLot) * 100).
    { unfold Qdiv.
      apply Qmult_le_compat_r; [|lra].
      apply Qmult_le_compat_r; [exact Hxy|lra]. }
    apply floor_mono in M.
    unfold Qdiv. apply Qmult_le_compat_r; [exact M|].
    apply Qlt_le_weak. reflexivity. }
  split; [|split].
  - intro Hpct.
    assert (Z0 : floor (0 / (stop * perLot) * 100) / 100 == 0).
    { assert (Zq : 0 / (stop * perLot) * 100 == 0) by (field; lra).
      unfold floor. rewrite Zq. reflexivity. }
    rewrite <- Z0. apply Hmono.
    assert (0 <= bal * pct) by (apply Qmult_le_0_compat; assumption).
    assert (F : bal * pct / 100 == bal * pct * (1 # 100)) by field.
    rewrite F. lra.
  - intro Hpct. apply Hmono.
    assert (F : bal * pct / 100 == bal * pct * (1 # 100)) by field.
    assert (G : bal * 5 / 100 == bal * 5 * (1 # 100)) by field.
    rewrite F, G.
    assert (bal * pct <= bal * 5).
    { rewrite (Qmult_comm bal pct), (Qmult_comm bal 5).
      apply Qmult_le_compat_r; assumption. }
    lra.
  - intros input' r' Eb Es Ep E'. rewrite Eb, Es, Ep in E'.
    fold bal stop perLot in E'. rewrite Ez in E'. now injection E' as <-.
Qed.

End LotLimitFacts.

Lemma calculateLotSize_within_maximum_witness :
  exists r,
    Calculator.calculateLotSize (fun s => s)
      (Calculator.CalculatorInput.mk 10000 1 20 "EUR/USD" "$") = Some r
    /\ Calculator.CalculatorResult.lotSize r
       <= Calculator.CalculatorResult.maxLotSize r.
Proof.
  eexists. split; [reflexivity|].
  refine (proj1 (proj2 (calculateLotSize_within_maximum (fun s => s)
                   (Calculator.CalculatorInput.mk 10000 1 20 "EUR/USD" "$")
                   _ _ _ _)) _).
  - reflexivity.
  - unfold Qle. simpl. lia.
  - reflexivity.
  - unfold Qle. simpl. lia.
Defined.

(* ================================================================== *)
(** ** Entered trades, the account balance and the equity curve *)

Section EntryFacts.
Import Db Analytics Props TradeDialog.

Lemma orNumber_nonzero (x : option Q) (dflt : Q) :
  ~ dflt == 0 -> ~ orNumber x dflt == 0.
Proof.
  intro Hd. unfold orNumber. destruct x as [q|]; [|exact Hd].
  destruct (Qeq_bool q 0) eqn:E; [exact Hd|].
  intro H. apply Qeq_bool_iff in H. congruence.
Qed.

(** X20.  The metrics the entry form computes: the risk amount is the
    balance times the risk percent over 100, where a blank or zero risk
    percent counts as 1 and a missing or zero balance as 10000, so neither
    factor is ever 0.  A win has an r-multiple that is not negative and a
    reward amount of r-multiple times risk amount; a loss has an r-multiple
    that is not positive and a reward amount of 0; a breakeven trade has
    both 0.  When entry and stop loss coincide a win gets an r-multiple of 0
    and a loss one of -1. *)
Theorem metrics_of_entry (formData : FormData.t) (currentBalance : option Q) :
  let m := calculateTradeMetrics formData currentBalance in
  let entry := orNumber (FormData.entry formData) 0 in
  let stopLoss := orNumber (FormData.stopLoss formData) 0 in
  Metrics.riskAmount m
  == orNumber currentBalance 10000 * orNumber (FormData.riskPercent formData) 1
     / 100
  /\ ~ orNumber currentBalance 10000 == 0
  /\ ~ orNumber (FormData.riskPercent formData) 1 == 0
  /\ match FormData.result formData with
     | Win =>
         0 <= Metrics.rMultiple m
         /\ Metrics.rewardAmount m
            == Metrics.rMultiple m * Metrics.riskAmount m
         /\ (entry == stopLoss -> Metrics.rMultiple m == 0)
     | Loss =>
         Metrics.rMultiple m <= 0
         /\ Metrics.rewardAmount m = 0
         /\ (entry == stopLoss -> Metrics.rMultiple m == - (1))
     | BE => Metrics.rMultiple m = 0 /\ Metrics.rewardAmount m = 0
     end.
Proof.
  cbv zeta. unfold calculateTradeMetrics.
  set (entry := orNumber (FormData.entry formData) 0).
  set (stopLoss := orNumber (FormData.stopLoss formData) 0).
  set (exitPrice := orNumber (FormData.exitPrice formData) 0).
  split; [destruct (FormData.result formData); reflexivity|].
  split; [apply orNumber_nonzero; discriminate|].
  split; [apply orNumber_nonzero; discriminate|].
  pose proof (Qabs_nonneg (entry - stopLoss)) as Hr.
  pose proof (Qabs_nonneg (exitPrice - entry)) as He.
  assert (Hz : entry == stopLoss -> Js.ltb 0 (Qabs (entry - stopLoss)) = false).
  { intro E. apply ltb_false.
    assert (Z : entry - stopLoss == 0) by lra. rewrite Z. simpl. lra. }
  destruct (FormData.result formData);
    cbn [Metrics.rMultiple Metrics.rewardAmount Metrics.riskAmount].
  - split; [|split; [reflexivity|]].
    + destruct (Js.ltb 0 (Qabs (entry - stopLoss))) eqn:E; [|lra].
      apply ltb_spec in E. apply Qle_shift_div_l; [exact E|lra].
    + intro E. rewrite (Hz E). reflexivity.
  - split; [|split; [reflexivity|]].
    + destruct (Js.ltb 0 (Qabs (entry - stopLoss))) eqn:E; [|lra].
      apply ltb_spec in E.
      assert (0 <= Qabs (exitPrice - entry) / Qabs (entry - stopLoss))
        by (apply Qle_shift_div_l; [exact E|lra]).
      lra.
    + intro E. rewrite (Hz E). reflexivity.
  - split; reflexivity.
Qed.


End EntryFacts.

Section AccountFacts.
Import Db Analytics Props AppContext.









End AccountFacts.


(* ================================================================== *)
(** ** The win/loss chart *)

Section ChartFacts.
Import Db Analytics Props WinLossChart.

(** X23.  The slices of the win/loss chart are, in this order, those of
    Wins, Losses and Breakeven that count at least one trade; their values
    add up to the number of trades, and there is no slice exactly when
    there is no trade. *)
Theorem winLoss_slices (trades : list Trade.t) :
  Forall (fun d => (1 <= Slice.value d)%nat) (data trades)
  /\ Spec.Subsequence (map Slice.name (data trades))
       ["Wins"; "Losses"; "Breakeven"]%string
  /\ list_sum (map Slice.value (data trades)) = List.length trades
  /\ (forall d, In d (data trades) ->
        (Slice.name d = "Wins"%string
         /\ Slice.value d = List.length (filter isWin trades))
        \/ (Slice.name d = "Losses"%string
            /\ Slice.value d = List.length (filter isLoss trades))
        \/ (Slice.name d = "Breakeven"%string
            /\ Slice.value d = List.length (filter isBE trades)))
  /\ (data trades = [] <-> trades = []).
Proof.
  unfold data. fold isBE.
  pose proof (result_partition trades) as P.
  set (w := List.length (filter isWin trades)) in *.
  set (l := List.length (filter isLoss trades)) in *.
  set (b := List.length (filter isBE trades)) in *.
  split; [|split; [|split; [|split]]].
  - apply Forall_forall. intros d Hd. apply filter_In in Hd.
    destruct Hd as [_ Hd]. apply Nat.ltb_lt in Hd. lia.
  - cbn [filter Slice.value].
    destruct (0 <? w)%nat, (0 <? l)%nat, (0 <? b)%nat; cbn [map Slice.name];
      repeat first [apply Spec.sub_keep|apply Spec.sub_skip|apply Spec.sub_nil].
  - rewrite list_sum_filter_pos. simpl. lia.
  - intros d Hd. apply filter_In in Hd. destruct Hd as [Hd _].
    destruct Hd as [<-|[<-|[<-|[]]]]; simpl; tauto.
  - cbn [filter Slice.value]. split.
    + intro H. destruct trades as [|t rest]; [reflexivity|].
      simpl in P.
      destruct (Nat.ltb_spec 0 w), (Nat.ltb_spec 0 l), (Nat.ltb_spec 0 b);
        try discriminate. lia.
    + intros ->. reflexivity.
Qed.

End ChartFacts.

(* ================================================================== *)
(** ** The selection of the best and the worst category *)

Section SelectionFacts.
Import Db Analytics Props.
Context {A : Type} (key : A -> Q).

(** The selecting [reduce] keeps the first entry whose key is largest. *)
Lemma reduce_first_max (l : list A) (b0 : A) :
  let x := Js.reduce
             (fun best curr => if Js.ltb (key best) (key curr) then curr
                               else best) b0 l in
  (x = b0 /\ forall y, In y l -> key y <= key b0)
  \/ exists pre post,
       l = pre ++ x :: post /\ key b0 < key x
       /\ (forall y, In y pre -> key y < key x)
       /\ (forall y, In y post -> key y <= key x).
Proof.
  cbv zeta. unfold Js.reduce. revert b0.
  induction l as [|c l IH]; intro b0; cbn [fold_left].
  - left. split; [reflexivity|]. intros y [].
  - destruct (Js.ltb (key b0) (key c)) eqn:E.
    + apply ltb_spec in E.
      destruct (IH c) as [[Hx Hle]|(pre & post & El & Hlt & Hpre & Hpost)].
      * right. exists [], l. rewrite Hx.
        split; [reflexivity|]. split; [exact E|].
        split; [intros y []|exact Hle].
      * right. exists (c :: pre), post. split; [now rewrite El at 1|].
        split; [lra|]. split; [|exact Hpost].
        intros y [<-|Hy]; [exact Hlt|now apply Hpre].
    + apply ltb_false in E.
      destruct (IH b0) as [[Hx Hle]|(pre & post & El & Hlt & Hpre & Hpost)].
      * left. split; [exact Hx|]. intros y [<-|Hy]; [exact E|now apply Hle].
      * right. exists (c :: pre), post. split; [now rewrite El at 1|].
        split; [exact Hlt|]. split; [|exact Hpost].
        intros y [<-|Hy]; [lra|now apply Hpre].
Qed.

Lemma pick_first_max (l : list A) :
  l <> [] ->
  exists pre x post,
    l = pre ++ x :: post
    /\ pick (fun curr best => Js.ltb (key best) (key curr)) l = Some x
    /\ (forall y, In y pre -> key y < key x)
    /\ (forall y, In y post -> key y <= key x).
Proof.
  destruct l as [|a l]; [congruence|]. intros _.
  unfold pick, Js.reduce. cbn [fold_left].
  assert (E : Js.ltb (key a) (key a) = false) by (apply ltb_false; lra).
  rewrite E.
  destruct (reduce_first_max l a)
    as [[Hx Hle]|(pre & post & El & Hlt & Hpre & Hpost)];
    unfold Js.reduce in *.
  - exists [], a, l. rewrite Hx. repeat split; [intros y []|exact Hle].
  - eexists (a :: pre), _, post. split; [now rewrite El at 1|].
    split; [reflexivity|]. split; [|exact Hpost].
    intros y [<-|Hy]; [exact Hlt|now apply Hpre].
Qed.

End SelectionFacts.

Section BestWorstFacts.
Import Db Analytics Props.

Lemma ltb_neg (a b : Q) : Js.ltb a b = Js.ltb (- b) (- a).
Proof.
  destruct (Js.ltb a b) eqn:E; symmetry.
  - apply ltb_spec in E. apply ltb_spec. lra.
  - apply ltb_false in E. apply ltb_false. lra.
Qed.

Lemma reduce_worst_as_max {A : Type} (key : A -> Q) (l : list A) (b : A) :
  fold_left
    (fun worst curr => if Js.ltb (key curr) (key worst) then curr else worst)
    l b
  = fold_left
      (fun best curr =>
         if Js.ltb (- key best) (- key curr) then curr else best)
      l b.
Proof.
  revert b. induction l as [|c l IH]; intro b; simpl; [reflexivity|].
  rewrite <- ltb_neg. apply IH.
Qed.

Lemma pick_worst_as_max {A : Type} (key : A -> Q) (l : list A) :
  pick (fun curr worst => Js.ltb (key curr) (key worst)) l
  = pick (fun curr best => Js.ltb (- key best) (- key curr)) l.
Proof.
  destruct l as [|a l]; [reflexivity|]. unfold pick, Js.reduce. f_equal.
  apply reduce_worst_as_max.
Qed.

(** X24.  On a non-empty collection bestSession names the first entry of
    the session breakdown whose average R is largest: the entries before it
    have a smaller average R and those after it none larger.  worstSession
    names the first entry whose average R is smallest.  bestSetup and
    worstSetup name the entries of the setup breakdown selected in the same
    way, and are 'N/A' when the name of that entry is the empty string. *)
Theorem best_worst_selection (t : Trade.t) (rest : list Trade.t) :
  let trades := t :: rest in
  let s := calculateStats trades in
  (exists pre x post,
      calculateSessionStats trades = pre ++ x :: post
      /\ TradingStats.bestSession s = SessionStats.session x
      /\ (forall y, In y pre -> SessionStats.avgR y < SessionStats.avgR x)
      /\ (forall y, In y post -> SessionStats.avgR y <= SessionStats.avgR x))
  /\ (exists pre x post,
         calculateSessionStats trades = pre ++ x :: post
         /\ TradingStats.worstSession s = SessionStats.session x
         /\ (forall y, In y pre -> SessionStats.avgR x < SessionStats.avgR y)
         /\ (forall y, In y post ->
               SessionStats.avgR x <= SessionStats.avgR y))
  /\ (exists pre x post,
         calculateSetupStats trades = pre ++ x :: post
         /\ TradingStats.bestSetup s = Js.or_string (SetupStats.setup x) NA
         /\ (forall y, In y pre -> SetupStats.avgR y < SetupStats.avgR x)
         /\ (forall y, In y post -> SetupStats.avgR y <= SetupStats.avgR x))
  /\ (exists pre x post,
         calculateSetupStats trades = pre ++ x :: post
         /\ TradingStats.worstSetup s = Js.or_string (SetupStats.setup x) NA
         /\ (forall y, In y pre -> SetupStats.avgR x < SetupStats.avgR y)
         /\ (forall y, In y post -> SetupStats.avgR x <= SetupStats.avgR y)).
Proof.
  cbv zeta. destruct (bestWorst_fields t rest) as (E1 & E2 & E3 & E4).
  cbv zeta in E1, E2, E3, E4. rewrite E1, E2, E3, E4. clear E1 E2 E3 E4.
  pose proof (sessionStats_nonempty t rest) as Hs.
  pose proof (setupStats_nonempty t rest) as Hp.
  pose proof (declared_session_named) as Hname.
  split; [|split; [|split]].
  - destruct (pick_first_max SessionStats.avgR _ Hs)
      as (pre & x & post & El & Ep & H1 & H2).
    exists pre, x, post. split; [exact El|]. rewrite Ep. cbn [nameOr].
    split; [|split; assumption].
    unfold Js.or_string.
    destruct (String.eqb_spec (SessionStats.session x) ""); [|reflexivity].
    exfalso.
    assert (Hin : In x (calculateSessionStats (t :: rest)))
      by (rewrite El; apply in_or_app; right; now left).
    apply sessionStats_session_declared, Hname in Hin. tauto.
  - rewrite pick_worst_as_max.
    destruct (pick_first_max (fun y => - SessionStats.avgR y) _ Hs)
      as (pre & x & post & El & Ep & H1 & H2).
    exists pre, x, post. split; [exact El|]. rewrite Ep. cbn [nameOr].
    split; [|split].
    + unfold Js.or_string.
      destruct (String.eqb_spec (SessionStats.session x) ""); [|reflexivity].
      exfalso.
      assert (Hin : In x (calculateSessionStats (t :: rest)))
        by (rewrite El; apply in_or_app; right; now left).
      apply sessionStats_session_declared, Hname in Hin. tauto.
    + intros y Hy. specialize (H1 y Hy). cbv beta in H1. lra.
    + intros y Hy. specialize (H2 y Hy). cbv beta in H2. lra.
  - destruct (pick_first_max SetupStats.avgR _ Hp)
      as (pre & x & post & El & Ep & H1 & H2).
    exists pre, x, post. split; [exact El|]. rewrite Ep. cbn [nameOr].
    split; [reflexivity|split; assumption].
  - rewrite pick_worst_as_max.
    destruct (pick_first_max (fun y => - SetupStats.avgR y) _ Hp)
      as (pre & x & post & El & Ep & H1 & H2).
    exists pre, x, post. split; [exact El|]. rewrite Ep. cbn [nameOr].
    split; [reflexivity|]. split.
    + intros y Hy. specialize (H1 y Hy). cbv beta in H1. lra.
    + intros y Hy. specialize (H2 y Hy). cbv beta in H2. lra.
Qed.

End BestWorstFacts.

(* ================================================================== *)
(** ** Independence of the order in which the trades are given *)

Section UniqueSortFacts.
Context {A : Type} (cmp : A -> A -> Z) (key : A -> Z).
Hypothesis cmp_key : forall a b, (cmp a b <= 0)%Z <-> (key a <= key b)%Z.

(** Two sorted arrangements of the same elements, no two with the same
    key, are the same list. *)
Lemma sorted_perm_unique (l1 l2 : list A) :
  StronglySorted (fun a b => (key a <= key b)%Z) l1 ->
  StronglySorted (fun a b => (key a <= key b)%Z) l2 ->
  NoDup (map key l1) ->
  Permutation l1 l2 -> l1 = l2.
Proof.
  revert l2. induction l1 as [|x l1 IH]; intros l2 S1 S2 Hnd P.
  - apply Permutation_nil in P. now subst.
  - destruct l2 as [|y l2]; [apply Permutation_sym, Permutation_nil in P;
                              discriminate|].
    inversion S1 as [|? ? S1' F1]; subst.
    inversion S2 as [|? ? S2' F2]; subst.
    inversion Hnd as [|? ? Hx Hnd']; subst.
    rewrite Forall_forall in F1, F2.
    assert (Exy : x = y).
    { assert (Hy : In y (x :: l1))
        by (apply (Permutation_in _ (Permutation_sym P)); now left).
      assert (Hxin : In x (y :: l2))
        by (apply (Permutation_in _ P); now left).
      destruct Hy as [Hy|Hy]; [exact Hy|].
      destruct Hxin as [Hxin|Hxin]; [now symmetry|].
      exfalso. apply Hx.
      assert (key x = key y)
        by (pose proof (F1 y Hy); pose proof (F2 x Hxin); lia).
      rewrite H. now apply in_map. }
    subst y. f_equal. apply IH; try assumption.
    now apply Permutation_cons_inv in P.
Qed.

Lemma sort_perm_invariant (l1 l2 : list A) :
  NoDup (map key l1) -> Permutation l1 l2 ->
  Js.sort cmp l1 = Js.sort cmp l2.
Proof.
  intros Hnd P. apply sorted_perm_unique.
  - apply (sort_sorted cmp key cmp_key).
  - apply (sort_sorted cmp key cmp_key).
  - apply (Permutation_NoDup
             (Permutation_sym (Permutation_map key (sort_perm cmp l1))) Hnd).
  - rewrite (sort_perm cmp l1), P. symmetry. apply sort_perm.
Qed.

End UniqueSortFacts.

Section OrderFacts.
Import Db Analytics Props.

Lemma streak_fields (t : Trade.t) (l : list Trade.t) :
  TradingStats.maxConsecutiveWins (calculateStats (t :: l))
  = maxConsecutiveWins (streakLoop (Js.sort byDateAsc (t :: l)))
  /\ TradingStats.maxConsecutiveLosses (calculateStats (t :: l))
     = maxConsecutiveLosses (streakLoop (Js.sort byDateAsc (t :: l))).
Proof. split; reflexivity. Qed.

(** X25.  When no two trades have the same timestamp, the outputs that
    walk the trades in date order do not depend on the order in which the
    trades are given: the equity curve, the two streak lengths, the maximum
    drawdown and the five most recent trades are the same for every
    rearrangement of the collection. *)
Theorem date_ordered_outputs (trades trades' : list Trade.t) :
  NoDup (map (fun t => Js.getTime (Trade.date t)) trades) ->
  Permutation trades trades' ->
  (forall startingBalance,
      calculateEquityCurve trades' startingBalance
      = calculateEquityCurve trades startingBalance)
  /\ TradingStats.maxConsecutiveWins (calculateStats trades')
     = TradingStats.maxConsecutiveWins (calculateStats trades)
  /\ TradingStats.maxConsecutiveLosses (calculateStats trades')
     = TradingStats.maxConsecutiveLosses (calculateStats trades)
  /\ TradingStats.maxDrawdown (calculateStats trades')
     = TradingStats.maxDrawdown (calculateStats trades)
  /\ recentTrades trades' = recentTrades trades.
Proof.
  intros Hnd P.
  pose proof (sort_perm_invariant byDateAsc _ byDateAsc_key
                trades trades' Hnd P) as Easc.
  assert (Hnd' : NoDup (map (fun t => (- Js.getTime (Trade.date t))%Z) trades)).
  { clear - Hnd. induction trades as [|t l IH]; [constructor|].
    simpl in *. inversion Hnd as [|? ? Hx Hl]; subst.
    constructor; [|now apply IH].
    intro H. apply Hx. apply in_map_iff in H. destruct H as (y & Hy & Hin).
    apply in_map_iff. exists y. split; [lia|exact Hin]. }
  pose proof (sort_perm_invariant byDateDesc _ byDateDesc_key
                trades trades' Hnd' P) as Edesc.
  split; [intro s; unfold calculateEquityCurve; now rewrite Easc|].
  split; [|split; [|split]].
  4: unfold recentTrades; now rewrite Edesc.
  all: destruct trades as [|t l];
    [apply Permutation_nil in P; subst; reflexivity|];
    destruct trades' as [|t' l'];
    [apply Permutation_sym, Permutation_nil in P; discriminate|].
  - rewrite (proj1 (streak_fields t l)), (proj1 (streak_fields t' l')).
    now rewrite Easc.
  - rewrite (proj2 (streak_fields t l)), (proj2 (streak_fields t' l')).
    now rewrite Easc.
  - rewrite !maxDrawdown_nonempty. now rewrite Easc.
Qed.

Lemma date_ordered_outputs_witness :
  Analytics.calculateEquityCurve [Examples.lossTrade; Examples.winTrade] 10000
  = Analytics.calculateEquityCurve [Examples.winTrade; Examples.lossTrade] 10000.
Proof.
  refine (proj1 (date_ordered_outputs
                   [Examples.winTrade; Examples.lossTrade]
                   [Examples.lossTrade; Examples.winTrade] _ _) 10000).
  - repeat constructor; simpl; intuition discriminate.
  - apply perm_swap.
Defined.

Lemma ascii_compare_refl (c : ascii) : Ascii.compare c c = Eq.
Proof. unfold Ascii.compare. apply N.compare_refl. Qed.

Lemma compare_app (p a b : string) :
  String.compare (p ++ a) (p ++ b) = String.compare a b.
Proof.
  induction p as [|c p IH]; simpl; [reflexivity|].
  now rewrite ascii_compare_refl.
Qed.

(** X26.  Within one year the month keys are in calendar order: for two
    dates of the same year the key of the earlier month is strictly before
    the key of the later month in the order the records are sorted by, so
    months 1 to 9, padded to two digits, come before months 10 to 12. *)
Theorem month_keys_in_calendar_order (d1 d2 : Js.Date) :
  Js.getFullYear d1 = Js.getFullYear d2 ->
  (0 <= Js.getMonth d1)%Z ->
  (Js.getMonth d1 < Js.getMonth d2)%Z ->
  (Js.getMonth d2 <= 11)%Z ->
  String.compare (monthKeyOf d1) (monthKeyOf d2) = Lt
  /\ (Js.localeCompare (monthKeyOf d1) (monthKeyOf d2) < 0)%Z.
Proof.
  intros Hy H0 Hlt H11.
  assert (E : String.compare (monthKeyOf d1) (monthKeyOf d2) = Lt).
  { unfold monthKeyOf. rewrite Hy, compare_app.
    change ("-" ++ ?x)%string with (String "-" x).
    cbn [String.compare]. rewrite ascii_compare_refl.
    assert (C1 : (Js.getMonth d1 = 0 \/ Js.getMonth d1 = 1
                  \/ Js.getMonth d1 = 2 \/ Js.getMonth d1 = 3
                  \/ Js.getMonth d1 = 4 \/ Js.getMonth d1 = 5
                  \/ Js.getMonth d1 = 6 \/ Js.getMonth d1 = 7
                  \/ Js.getMonth d1 = 8 \/ Js.getMonth d1 = 9
                  \/ Js.getMonth d1 = 10)%Z) by lia.
    assert (C2 : (Js.getMonth d2 = 1 \/ Js.getMonth d2 = 2
                  \/ Js.getMonth d2 = 3 \/ Js.getMonth d2 = 4
                  \/ Js.getMonth d2 = 5 \/ Js.getMonth d2 = 6
                  \/ Js.getMonth d2 = 7 \/ Js.getMonth d2 = 8
                  \/ Js.getMonth d2 = 9 \/ Js.getMonth d2 = 10
                  \/ Js.getMonth d2 = 11)%Z) by lia.
    revert Hlt.
    repeat (destruct C1 as [C1|C1]);
      repeat (destruct C2 as [C2|C2]);
      rewrite C1, C2; intro Hlt; try lia; reflexivity. }
  split; [exact E|]. unfold Js.localeCompare. rewrite E. lia.
Qed.

Lemma month_keys_in_calendar_order_witness :
  String.compare (Analytics.monthKeyOf Examples.jan1)
                 (Analytics.monthKeyOf Examples.feb1) = Lt.
Proof.
  refine (proj1 (month_keys_in_calendar_order Examples.jan1 Examples.feb1
                   _ _ _ _)).
  - reflexivity.
  - simpl. lia.
  - simpl. lia.
  - simpl. lia.
Defined.

End OrderFacts.
